(** * The index finder of graphite-clickhouse (finder/index.go)

    A shallow embedding of [IndexFinder]: the direction resolver
    ([checkReverses], [useReverse]), the predicate builder of [Execute]
    and the response decoder ([makeList], [List], [Series]), with the
    properties the specification states about them. *)

From Stdlib Require Import ZArith String Ascii List Lia Bool.
From Stdlib Require Import Strings.Byte Numbers.DecimalString.
From stdpp Require Import base list.
From Equations Require Import Equations.
Import ListNotations.

Local Open Scope string_scope.
Local Open Scope list_scope.
Local Open Scope Z_scope.

(** ** Go values *)

(** Evaluating a Go expression yields a value or a run-time panic (an index
    or a slice bound out of range). *)
Inductive result (A : Type) : Type :=
| Ok (a : A)
| Panic.
Arguments Ok {A} a.
Arguments Panic {A}.

#[global] Instance result_ret : MRet result := @Ok.
#[global] Instance result_bind : MBind result :=
  fun A B f m => match m with Ok a => f a | Panic => Panic end.

(** Go's [int] is a 64-bit two's complement integer; [int] wraps a
    mathematical integer into that range. *)
Definition int (z : Z) : Z := (z + 2 ^ 63) mod 2 ^ 64 - 2 ^ 63.
Definition int_add (a b : Z) : Z := int (a + b).

(** [len(s)] of a string and of a slice. *)
Definition len (s : string) : Z := Z.of_nat (String.length s).
Definition slice_len {A} (s : list A) : Z := Z.of_nat (List.length s).

(** The hierarchy separator and the line separator. *)
Definition dot : ascii := "."%char.
Definition dot_byte : byte := "."%byte.
Definition newline_byte : byte := x0a.

(** [strings.Count(s, string(sep))] for a one-byte separator. *)
Fixpoint Count (s : string) (sep : ascii) : Z :=
  match s with
  | EmptyString => 0
  | String c s' => (if Ascii.eqb c sep then 1 else 0) + Count s' sep
  end.

(** [strings.HasPrefix(s, prefix)] and [strings.HasSuffix(s, suffix)]. *)
Definition HasPrefix (s prefix : string) : bool := String.prefix prefix s.

Definition HasSuffix (s suffix : string) : bool :=
  (len suffix <=? len s)
  && String.eqb
       (substring (String.length s - String.length suffix) (String.length suffix) s)
       suffix.

(** Membership of a byte in the byte set [chars]. *)
Fixpoint contains_byte (chars : string) (c : ascii) : bool :=
  match chars with
  | EmptyString => false
  | String d chars' => Ascii.eqb c d || contains_byte chars' c
  end.

(** [strings.IndexAny(s, chars)] and [strings.LastIndexAny(s, chars)] for a
    set [chars] of one-byte characters: the index of the first (last) byte
    of [s] that is in [chars], or [-1]. *)
Fixpoint IndexAny (s chars : string) : Z :=
  match s with
  | EmptyString => -1
  | String c s' =>
      if contains_byte chars c then 0
      else let i := IndexAny s' chars in
           if i =? -1 then -1 else i + 1
  end.

Fixpoint LastIndexAny (s chars : string) : Z :=
  match s with
  | EmptyString => -1
  | String c s' =>
      let i := LastIndexAny s' chars in
      if i =? -1 then (if contains_byte chars c then 0 else -1) else i + 1
  end.

(** The slice expressions [s[:hi]] and [s[lo:]] on a string; they panic when
    the bound is outside [0, len(s)]. *)
Definition slice_to (s : string) (hi : Z) : result string :=
  if (0 <=? hi) && (hi <=? len s)
  then Ok (substring 0 (Z.to_nat hi) s)
  else Panic.

Definition slice_from (s : string) (lo : Z) : result string :=
  if (0 <=? lo) && (lo <=? len s)
  then Ok (substring (Z.to_nat lo) (String.length s - Z.to_nat lo) s)
  else Panic.

(** [bytes.Split(s, []byte{sep})]: the pieces of [s] between the
    separators, one more than there are separators. *)
Fixpoint Split (s : list byte) (sep : byte) : list (list byte) :=
  match s with
  | [] => [[]]
  | c :: s' =>
      if Byte.eqb c sep then [] :: Split s' sep
      else match Split s' sep with
           | [] => [[c]]
           | row :: rows => (c :: row) :: rows
           end
  end.

(** [bytes.Join(rows, []byte{sep})], the inverse of [Split]. *)
Fixpoint Join (rows : list (list byte)) (sep : byte) : list byte :=
  match rows with
  | [] => []
  | [row] => row
  | row :: rows' => row ++ sep :: Join rows' sep
  end.

(** The index expression [s[i]], the assignment [s[i] = a] and the slice
    expression [s[:hi]] on a slice.  Indices are Go [int]s that stay between
    [-len(s)] and [len(s)] here, so they are kept as exact integers. *)
Definition index {A} (s : list A) (i : Z) : result A :=
  if 0 <=? i
  then match s !! Z.to_nat i with Some a => Ok a | None => Panic end
  else Panic.

Definition store {A} (s : list A) (i : Z) (a : A) : result (list A) :=
  if (0 <=? i) && (i <? slice_len s)
  then Ok (<[Z.to_nat i := a]> s)
  else Panic.

Definition reslice_to {A} (s : list A) (hi : Z) : result (list A) :=
  if (0 <=? hi) && (hi <=? slice_len s)
  then Ok (take (Z.to_nat hi) s)
  else Panic.

(** A counted loop [for i := lo; i < lo + n; i++ { body }] over a state. *)
Fixpoint for_range {St} (n : nat) (i : Z) (body : Z -> St -> result St) (st : St)
  : result St :=
  match n with
  | O => Ok st
  | S n' => st' ← body i st; for_range n' (i + 1) body st'
  end.

(** ** Configuration (package config) *)

(** Modelled from the spec: package config is outside finder/index.go.  The
    direction is the tri-state of section 3, "Direction: tri-state {Auto,
    Forward, Reversed}. Starts Auto": [IndexAuto] is the zero value of the
    [uint8] fields [confReverse] and [reverse], which are only ever written
    from these three constants and from the table [config.IndexReverse]. *)
Inductive IndexDirection : Set :=
| IndexAuto
| IndexDirect
| IndexReversed.

(** A compiled regular expression ([*regexp.Regexp] of the Go library) is
    represented by its [FindStringIndex] method, which returns the location
    of the leftmost match or nil ([None]). *)
Definition Regexp : Type := string -> option (Z * Z).

(** Modelled from the spec: [config.IndexReverseRule] is outside
    finder/index.go; a reverse rule is "ordered {prefix, suffix, regex,
    forced-direction}" (section 3).  The fields are those [checkReverses]
    reads; [Regex] is [None] for a nil pointer, and [Reverse] is the
    configured name that the table [config.IndexReverse] decodes. *)
Record IndexReverseRule : Type := {
  Suffix : string;
  Prefix : string;
  Regex : option Regexp;
  Reverse : string
}.

Definition IndexReverses : Type := list IndexReverseRule.

(** Modelled from the spec: [clickhouse.Options] is outside finder/index.go;
    "options include connection/read timeouts" (section 6). *)
Record Options : Type := {
  Timeout : Z;
  ConnectTimeout : Z
}.

(** ** Predicates (package where) *)

(** Modelled from the spec: package where is outside finder/index.go.
    Section 6 describes it as an "equality predicate on an integer column;
    hierarchy-glob predicate on a string column; free-form formatted boolean
    clauses combinable with logical AND".  A [Where] is the list of the
    clauses joined by AND, in the order of the [And] and [Andf] calls. *)
Inductive Value : Type :=
| IntValue (n : Z)
| StringValue (s : string).

Inductive Clause : Type :=
| Eq (field : string) (value : Value)
| TreeGlob (field : string) (query : string)
| Format (format : string) (args : list string).

Definition Where : Type := list Clause.

Definition New : Where := [].
Definition And (w : Where) (c : Clause) : Where := w ++ [c].
Definition Andf (w : Where) (format : string) (args : list string) : Where :=
  w ++ [Format format args].

(** ** The finder *)

Definition ReverseLevelOffset : Z := 10000.
Definition TreeLevelOffset : Z := 20000.
Definition ReverseTreeLevelOffset : Z := 30000.

Definition DefaultTreeDate : string := "1970-02-12".

Definition queryAuto : IndexDirection := IndexAuto.
Definition queryDirect : IndexDirection := IndexDirect.
Definition queryReversed : IndexDirection := IndexReversed.

Record IndexFinder : Type := {
  url : string;
  table : string;
  opts : Options;
  dailyEnabled : bool;
  confReverse : IndexDirection;
  confReverses : IndexReverses;
  reverse : IndexDirection;
  body : option (list byte);
  useDaily : bool
}.

Definition set_reverse (r : IndexDirection) (idx : IndexFinder) : IndexFinder :=
  {| url := url idx; table := table idx; opts := opts idx;
     dailyEnabled := dailyEnabled idx; confReverse := confReverse idx;
     confReverses := confReverses idx; reverse := r; body := body idx;
     useDaily := useDaily idx |}.

Definition set_useDaily (d : bool) (idx : IndexFinder) : IndexFinder :=
  {| url := url idx; table := table idx; opts := opts idx;
     dailyEnabled := dailyEnabled idx; confReverse := confReverse idx;
     confReverses := confReverses idx; reverse := reverse idx; body := body idx;
     useDaily := d |}.

Definition set_body (b : option (list byte)) (idx : IndexFinder) : IndexFinder :=
  {| url := url idx; table := table idx; opts := opts idx;
     dailyEnabled := dailyEnabled idx; confReverse := confReverse idx;
     confReverses := confReverses idx; reverse := reverse idx; body := b;
     useDaily := useDaily idx |}.

(** Two finders with the same configuration: the fields [NewIndex] sets from
    its arguments. *)
Definition same_config (a b : IndexFinder) : Prop :=
  url a = url b /\ table a = table b /\ opts a = opts b /\
  dailyEnabled a = dailyEnabled b /\ confReverse a = confReverse b /\
  confReverses a = confReverses b.

(** [NewIndex] with the table [config.IndexReverse] as its first argument;
    the fields it does not set have their zero values. *)
Definition NewIndex (IndexReverse : string -> IndexDirection)
    (url table : string) (dailyEnabled : bool) (reverse : string)
    (reverses : IndexReverses) (opts : Options) : IndexFinder :=
  {| url := url; table := table; opts := opts; dailyEnabled := dailyEnabled;
     confReverse := IndexReverse reverse; confReverses := reverses;
     reverse := IndexAuto; body := None; useDaily := false |}.

(** The number of direction resolutions a finder still has to make: the
    measure on which [useReverse] recurses. *)
Definition unresolved (idx : IndexFinder) : nat :=
  match reverse idx with
  | IndexAuto => 1
  | _ => 0
  end.

Definition inspect {A} (a : A) : {b : A | a = b} := exist _ a eq_refl.

(** ** Stand-ins for the collaborators, for closed examples *)

(** Modelled from the spec: the byte set of package where is outside
    finder/index.go; the spec speaks of "glob-style" patterns with "wildcard
    tokens", and this set holds the usual glob metacharacters, the [*] of
    its examples among them. *)
Definition glob : string := "[]{}*?".

(** Modelled from the spec: the table [config.IndexReverse] is outside
    finder/index.go; it is keyed by the names of the three directions, and
    a name that is not a key gives the zero value of the Go map. *)
Definition IndexReverseNames (name : string) : IndexDirection :=
  if String.eqb name "direct" then IndexDirect
  else if String.eqb name "reversed" then IndexReversed
  else IndexAuto.

(** Modelled from the spec: [ReverseBytes] and [ReverseString] of package
    finder are outside finder/index.go; section 4.4 defines the reversal
    "as byte-order inversion with special handling so the final hierarchy
    separator, if present, stays final rather than becoming first". *)
Definition reverseBytes (target : list byte) : list byte :=
  match last target with
  | Some b =>
      if Byte.eqb b dot_byte then rev (removelast target) ++ [dot_byte]
      else rev target
  | None => []
  end.

Definition reverseString (target : string) : string :=
  string_of_list_byte (reverseBytes (list_byte_of_string target)).

(** Modelled from the spec: the same reversal read as section 4.2 words it,
    a "segment-preserving" one: the segments between the separators are kept
    and their order is inverted. *)
Definition reverseSegments (target : list byte) : list byte :=
  Join (rev (Split target dot_byte)) dot_byte.

(** The civil date (year, month, day) of a day number counted from
    1970-01-01, in the proleptic Gregorian calendar. *)
Definition civil_from_days (days : Z) : Z * Z * Z :=
  let z := days + 719468 in
  let era := z / 146097 in
  let doe := z - era * 146097 in
  let yoe := (doe - doe / 1460 + doe / 36524 - doe / 146096) / 365 in
  let doy := doe - (365 * yoe + yoe / 4 - yoe / 100) in
  let mp := (5 * doy + 2) / 153 in
  let d := doy - (153 * mp + 2) / 5 + 1 in
  let m := if mp <? 10 then mp + 3 else mp - 9 in
  let y := yoe + era * 400 in
  (if m <=? 2 then y + 1 else y, m, d).

(** An integer in decimal, with a sign when negative and zeros on the left
    up to [width] digits, and all its digits when it has more. *)
Fixpoint zeros (n : nat) : string :=
  match n with
  | O => EmptyString
  | S n' => String "0" (zeros n')
  end.

Definition decimal (width : nat) (n : Z) : string :=
  let digits := NilZero.string_of_uint (N.to_uint (Z.to_N (Z.abs n))) in
  String.append (if n <? 0 then "-" else "")
    (String.append (zeros (width - String.length digits)) digits).

(** [time.Unix(sec, 0).Format(layout)] for the layout 2006-01-02, the only
    one [Execute] uses ("formatted as YYYY-MM-DD", section 4.2), in a zone
    that is [offset] seconds east of UTC: the year with four digits or more,
    the month and the day with two.  Other layouts are not modelled: they
    are returned as they are. *)
Definition unixDateIn (offset sec : Z) (layout : string) : string :=
  if String.eqb layout "2006-01-02"
  then let '(y, m, d) := civil_from_days ((sec + offset) / 86400) in
       String.append (decimal 4 y)
         (String.append "-"
            (String.append (decimal 2 m) (String.append "-" (decimal 2 d))))
  else layout.

(** The same for a process whose local zone is UTC. *)
Definition unixDate : Z -> string -> string := unixDateIn 0.

(** A store that answers every query with the same body and no error. *)
Definition answering (raw : list byte)
  : unit -> string -> string -> Options -> option (list byte) * option string :=
  fun _ _ _ _ => (Some raw, None).

(** A rendering and a request scope that carry no information. *)
Definition unrendered : Where -> string := fun _ => "(predicate)".
Definition noScope : unit -> string -> unit := fun _ _ => tt.

(** A finder without reverse rules whose configured direction is Auto. *)
Definition plainFinder : IndexFinder :=
  NewIndex IndexReverseNames "http://localhost:8123" "graphite_index" false "auto" []
    {| Timeout := 60; ConnectTimeout := 1 |}.

(** The same finder with daily indexing enabled. *)
Definition dailyFinder : IndexFinder :=
  NewIndex IndexReverseNames "http://localhost:8123" "graphite_index" true "auto" []
    {| Timeout := 60; ConnectTimeout := 1 |}.

(** Reverse rules: one on a prefix, one on a suffix, one on a regular
    expression that matches nothing, and rules carrying each direction. *)
Definition carbonDirect : IndexReverseRule :=
  {| Suffix := ""; Prefix := "carbon."; Regex := None; Reverse := "direct" |}.
Definition neverDirect : IndexReverseRule :=
  {| Suffix := ""; Prefix := ""; Regex := Some (fun _ => None); Reverse := "direct" |}.
Definition starReversed : IndexReverseRule :=
  {| Suffix := ".*"; Prefix := ""; Regex := None; Reverse := "reversed" |}.
Definition aAuto : IndexReverseRule :=
  {| Suffix := ""; Prefix := "a."; Regex := None; Reverse := "auto" |}.
Definition dDirect : IndexReverseRule :=
  {| Suffix := ".d"; Prefix := ""; Regex := None; Reverse := "direct" |}.

Definition anyReversed : IndexReverseRule :=
  {| Suffix := ""; Prefix := ""; Regex := None; Reverse := "reversed" |}.

(** A finder with one rule whose configured direction is Reversed. *)
Definition reversedFinder : IndexFinder :=
  NewIndex IndexReverseNames "http://localhost:8123" "graphite_index" false "reversed"
    [carbonDirect] {| Timeout := 60; ConnectTimeout := 1 |}.

Definition ruledFinder (rules : IndexReverses) : IndexFinder :=
  NewIndex IndexReverseNames "http://localhost:8123" "graphite_index" false "auto" rules
    {| Timeout := 60; ConnectTimeout := 1 |}.

(** The bytes of a string literal, and the lines of a body. *)
Definition bytes (s : string) : list byte := list_byte_of_string s.
Definition line (s : string) : list byte := bytes s ++ [newline_byte].

(** The response body that lists [rows], one per line, each line ended by
    the newline byte: what [FORMAT TabSeparatedRaw] gives for the one column
    [Path]. *)
Definition unlines (rows : list (list byte)) : list byte :=
  flat_map (fun row => row ++ [newline_byte]) rows.

(** A line of such a body that holds a path: it is not empty and holds no
    newline byte. *)
Definition is_line (row : list byte) : bool :=
  match row with
  | [] => false
  | _ => forallb (fun c => negb (Byte.eqb c newline_byte)) row
  end.

(** Closes a goal [true = b] where [b] is a conjunction of integer
    comparisons that hold. *)
Ltac holds :=
  symmetry; repeat (apply andb_true_intro; split);
  first [apply Z.leb_le | apply Z.ltb_lt]; simpl; lia.

Section Finder.

Set Default Proof Using "Type".

(** The parts of the repository and of its environment that the finder
    calls and that are not in finder/index.go. *)

(** [config.IndexReverse], the table from configured names to directions. *)
Variable IndexReverse : string -> IndexDirection.

(** The byte set of the glob syntax: [where.IndexWildcard] and
    [where.IndexLastWildcard] return the position of the first and of the
    last byte of the pattern that is in it, or [-1]. *)
Variable wildcards : string.

(** [ReverseString] and [ReverseBytes] of package finder. *)
Variable ReverseString : string -> string.
Variable ReverseBytes : list byte -> list byte.

(** Modelled from the spec: [where.IndexWildcard] and
    [where.IndexLastWildcard] are outside finder/index.go; section 4.1 has
    them locate "the first and last wildcard segment", and the code compares
    the first with [-1] and slices the pattern at both. *)
Definition IndexWildcard (target : string) : Z := IndexAny target wildcards.
Definition IndexLastWildcard (target : string) : Z := LastIndexAny target wildcards.

(** One iteration of the loop of [checkReverses] decides whether the rule
    is skipped ([continue]). *)
Definition skips (rule : IndexReverseRule) (query : string) : bool :=
  if (0 <? len (Prefix rule)) && negb (HasPrefix query (Prefix rule)) then true
  else if (0 <? len (Suffix rule)) && negb (HasSuffix query (Suffix rule)) then true
  else match Regex rule with
       | Some re => match re query with None => true | Some _ => false end
       | None => false
       end.

Fixpoint checkReverses_loop (rules : IndexReverses) (query : string)
    (conf : IndexDirection) : IndexDirection :=
  match rules with
  | [] => conf
  | rule :: rules' =>
      if skips rule query then checkReverses_loop rules' query conf
      else IndexReverse (Reverse rule)
  end.

Definition checkReverses (idx : IndexFinder) (query : string) : IndexDirection :=
  checkReverses_loop (confReverses idx) query (confReverse idx).

(** [useReverse] calls itself after each assignment to [idx.reverse]; the
    clauses are, in order, lines 79-83 (the cached direction), lines 85-87
    (a direction from [checkReverses]), lines 89-93 (no wildcard) and lines
    94-104 (the wildcard depths).  The recursion is on [unresolved]: every
    recursive call is on a finder whose direction is no longer Auto. *)
Equations? useReverse (idx : IndexFinder) (query : string)
  : result (bool * IndexFinder) by wf (unresolved idx) lt :=
useReverse idx query with inspect (reverse idx) := {
  | exist _ IndexDirect _ => Ok (false, idx)
  | exist _ IndexReversed _ => Ok (true, idx)
  | exist _ IndexAuto Hauto with inspect (checkReverses idx query) := {
    | exist _ IndexDirect _ => useReverse (set_reverse IndexDirect idx) query
    | exist _ IndexReversed _ => useReverse (set_reverse IndexReversed idx) query
    | exist _ IndexAuto _ with Z.eqb (IndexWildcard query) (-1) := {
      | true => useReverse (set_reverse queryDirect idx) query
      | false with slice_to query (IndexWildcard query) := {
        | Panic => Panic
        | Ok before with slice_from query (IndexLastWildcard query) := {
          | Panic => Panic
          | Ok after with Z.ltb (Count before dot) (Count after dot) := {
            | true => useReverse (set_reverse queryReversed idx) query
            | false => useReverse (set_reverse queryDirect idx) query
            }
          }
        }
      }
    }
  }.
Proof.
  all: unfold unresolved; rewrite Hauto; simpl; lia.
Qed.

(** *** Building the predicate and running the query *)

(** [time.Unix(sec, 0).Format(layout)] of the Go library. *)
Variable UnixFormat : Z -> string -> string.

(** The rendering [Where.String()] of package where, the request scope
    [scope.WithTable] and the transport [clickhouse.Query], which answers
    with a response body and an error, each possibly nil. *)
Variable WhereString : Where -> string.
Variable Context : Type.
Variable WithTable : Context -> string -> Context.
Variable Query :
  Context -> string -> string -> Options -> option (list byte) * option string.

Definition where_ (idx : IndexFinder) (query : string) (levelOffset : Z) : Where :=
  let level := int_add (Count query dot) 1 in
  let w := New in
  let w := And w (Eq "Level" (IntValue (int_add level levelOffset))) in
  let w := And w (TreeGlob "Path" query) in
  w.

(** Lines 108 to 143 of [Execute]: everything up to the call of
    [clickhouse.Query], returning the predicate [w] that is sent. *)
Definition Execute_where (idx : IndexFinder) (query : string) (from until : Z)
  : result (Where * IndexFinder) :=
  '(r, idx) ← useReverse idx query;
  let idx :=
    if dailyEnabled idx && (0 <? from) && (0 <? until)
    then set_useDaily true idx
    else set_useDaily false idx in
  '(levelOffset, idx) ←
    (if useDaily idx then
       '(r, idx) ← useReverse idx query;
       Ok (if (r : bool) then ReverseLevelOffset else 0, idx)
     else
       '(r, idx) ← useReverse idx query;
       Ok (if (r : bool) then ReverseTreeLevelOffset else TreeLevelOffset, idx));
  '(r, idx) ← useReverse idx query;
  let query := if (r : bool) then ReverseString query else query in
  let w := where_ idx query levelOffset in
  let w :=
    if useDaily idx
    then Andf w "Date >='%s' AND Date <= '%s'"
           [UnixFormat from "2006-01-02"; UnixFormat until "2006-01-02"]
    else And w (Eq "Date" (StringValue DefaultTreeDate)) in
  Ok (w, idx).

(** The text [fmt.Sprintf] builds for the query. *)
Definition selectPaths (table : string) (w : Where) : string :=
  String.append "SELECT Path FROM "
    (String.append table
       (String.append " WHERE "
          (String.append (WhereString w)
             " GROUP BY Path FORMAT TabSeparatedRaw"))).

Definition Execute (idx : IndexFinder) (ctx : Context) (query : string)
    (from until : Z) : result (option string * IndexFinder) :=
  '(w, idx) ← Execute_where idx query from until;
  let '(body, err) :=
    Query (WithTable ctx (table idx)) (url idx) (selectPaths (table idx) w)
      (opts idx) in
  Ok (err, set_body body idx).

Definition Abs (idx : IndexFinder) (v : list byte) : list byte := v.

(** *** Decoding the response *)

(** The body of the compaction loop of [makeList], on the loop state
    [(skip, rows)]. *)
Definition compact_step (onlySeries : bool) (i : Z) (st : Z * list (list byte))
  : result (Z * list (list byte)) :=
  let '(skip, rows) := st in
  row ← index rows i;
  if slice_len row =? 0 then Ok (skip + 1, rows)
  else
    directory ←
      (if onlySeries
       then last ← index row (slice_len row - 1); Ok (Byte.eqb last dot_byte)
       else Ok false);
    if (directory : bool) then Ok (skip + 1, rows)
    else if 0 <? skip
         then rows' ← store rows (i - skip) row; Ok (skip, rows')
         else Ok (skip, rows).

(** The body of the loop of [makeList] that restores the natural order. *)
Definition unreverse_step (i : Z) (rows : list (list byte))
  : result (list (list byte)) :=
  row ← index rows i;
  store rows i (ReverseBytes row).

(** The slice returned is [None] when it is nil. *)
Definition makeList (idx : IndexFinder) (onlySeries : bool)
  : result (option (list (list byte)) * IndexFinder) :=
  match body idx with
  | None => Ok (Some [], idx)
  | Some b =>
      let rows := Split b newline_byte in
      '(skip, rows) ←
        for_range (List.length rows) 0 (compact_step onlySeries) (0, rows);
      rows ← reslice_to rows (slice_len rows - skip);
      '(r, idx) ← useReverse idx "";
      rows ←
        (if (r : bool)
         then for_range (List.length rows) 0 unreverse_step rows
         else Ok rows);
      Ok (Some rows, idx)
  end.

Definition List (idx : IndexFinder) := makeList idx false.
Definition Series (idx : IndexFinder) := makeList idx true.

(** *** The methods as transitions of a finder *)

Inductive call : Type :=
| CallUseReverse (query : string)
| CallExecute (ctx : Context) (query : string) (from until : Z)
| CallList
| CallSeries.

(** The finder after one call. *)
Definition after (c : call) (idx : IndexFinder) : result IndexFinder :=
  match c with
  | CallUseReverse query => '(r, idx') ← useReverse idx query; Ok idx'
  | CallExecute ctx query from until =>
      '(err, idx') ← Execute idx ctx query from until; Ok idx'
  | CallList => '(rows, idx') ← List idx; Ok idx'
  | CallSeries => '(rows, idx') ← Series idx; Ok idx'
  end.

(** The finder after a sequence of calls. *)
Fixpoint after_all (cs : list call) (idx : IndexFinder) : result IndexFinder :=
  match cs with
  | [] => Ok idx
  | c :: cs' => idx' ← after c idx; after_all cs' idx'
  end.

(** A sequence of [List] ([false]) and [Series] ([true]) calls: the
    slices returned, in order, and the finder left behind. *)
Fixpoint decodes (onlySeries : list bool) (idx : IndexFinder)
  : result (list (option (list (list byte))) * IndexFinder) :=
  match onlySeries with
  | [] => Ok ([], idx)
  | b :: bs =>
      '(rows, idx') ← makeList idx b;
      '(more, idx'') ← decodes bs idx';
      Ok (rows :: more, idx'')
  end.

(** *** The words of the specification *)

(** The Boolean a resolved direction stands for. *)
Definition reversed (d : IndexDirection) : bool :=
  match d with
  | IndexReversed => true
  | _ => false
  end.

(** A rule matches when a non-empty prefix is a prefix of the pattern, a
    non-empty suffix is a suffix of it and a non-nil regex matches it;
    absent fields match everything. *)
Definition rule_matches (rule : IndexReverseRule) (pattern : string) : bool :=
  (String.eqb (Prefix rule) "" || HasPrefix pattern (Prefix rule))
  && (String.eqb (Suffix rule) "" || HasSuffix pattern (Suffix rule))
  && match Regex rule with
     | None => true
     | Some re => match re pattern with Some _ => true | None => false end
     end.

Definition is_wildcard (c : ascii) : bool := contains_byte wildcards c.
Definition is_separator (c : ascii) : bool := Ascii.eqb c dot.

(** A literal pattern has no wildcard. *)
Fixpoint is_literal (pattern : string) : bool :=
  match pattern with
  | EmptyString => true
  | String c rest => negb (is_wildcard c) && is_literal rest
  end.

(** The number of separators before the first wildcard, when the pattern
    has a wildcard. *)
Fixpoint firstWildcardDepth (pattern : string) : option Z :=
  match pattern with
  | EmptyString => None
  | String c rest =>
      if is_wildcard c then Some 0
      else match firstWildcardDepth rest with
           | Some d => Some ((if is_separator c then 1 else 0) + d)
           | None => None
           end
  end.

(** The number of separators from the last wildcard to the end of the
    pattern, when the pattern has a wildcard. *)
Fixpoint lastWildcardDepth (pattern : string) : option Z :=
  match pattern with
  | EmptyString => None
  | String c rest =>
      match lastWildcardDepth rest with
      | Some d => Some d
      | None => if is_wildcard c then Some (Count pattern dot) else None
      end
  end.

(** The wildcard-position heuristic of section 4.1, step 3. *)
Definition heuristic (pattern : string) : IndexDirection :=
  match firstWildcardDepth pattern, lastWildcardDepth pattern with
  | Some first, Some last => if first <? last then IndexReversed else IndexDirect
  | _, _ => IndexDirect
  end.

(** The direction a first resolution caches (section 4.1, steps 2 and 3):
    the one [checkReverses] gives, and the heuristic when that is Auto. *)
Definition resolution (idx : IndexFinder) (pattern : string) : IndexDirection :=
  match checkReverses idx pattern with
  | IndexAuto => heuristic pattern
  | d => d
  end.

(** The contract [resolve(pattern)] of section 4.1: the cached direction
    of a resolved finder, the first resolution of an unresolved one. *)
Definition direction (idx : IndexFinder) (pattern : string) : IndexDirection :=
  match reverse idx with
  | IndexAuto => resolution idx pattern
  | d => d
  end.

(** The level offset table of section 4.2. *)
Definition levelOffset (d : IndexDirection) (daily : bool) : Z :=
  match d, daily with
  | IndexReversed, true => 10000
  | IndexReversed, false => 30000
  | _, false => 20000
  | _, true => 0
  end.

(** A line is a directory when its final byte is the separator. *)
Definition is_directory (row : list byte) : bool :=
  match last row with
  | Some b => Byte.eqb b dot_byte
  | None => false
  end.

(** The lines the decoder retains: the non-empty ones and, for [Series],
    those that are not directories. *)
Definition retained (onlySeries : bool) (row : list byte) : bool :=
  match row with
  | [] => false
  | _ => negb (onlySeries && is_directory row)
  end.

(** The daily mode of section 4.2. *)
Definition daily (idx : IndexFinder) (from until : Z) : bool :=
  dailyEnabled idx && (0 <? from) && (0 <? until).

(** The decoder of section 4.4: the retained lines of the body, in order,
    each restored to natural order when the direction is Reversed. *)
Definition decode (d : IndexDirection) (onlySeries : bool) (raw : list byte)
  : list (list byte) :=
  let lines := List.filter (retained onlySeries) (Split raw newline_byte) in
  if reversed d then map ReverseBytes lines else lines.

(** What [List] ([false]) and [Series] ([true]) derive from the stored
    body. *)
Definition decoded (idx : IndexFinder) (onlySeries : bool) : list (list byte) :=
  match body idx with
  | None => []
  | Some raw => decode (direction idx "") onlySeries raw
  end.

(** ** Properties of the Go primitives *)

Lemma len_nonneg (s : string) : 0 <= len s.
Proof. unfold len. lia. Qed.

Lemma len_String (c : ascii) (s : string) : len (String c s) = len s + 1.
Proof. unfold len. simpl String.length. lia. Qed.

Lemma Count_nonneg (s : string) (sep : ascii) : 0 <= Count s sep.
Proof.
  induction s as [|c s IH]; simpl; [lia|].
  destruct (Ascii.eqb c sep); lia.
Qed.

Lemma Count_le_len (s : string) (sep : ascii) : Count s sep <= len s.
Proof.
  induction s as [|c s IH]; [unfold len; simpl; lia|].
  rewrite len_String. simpl. destruct (Ascii.eqb c sep); lia.
Qed.

Lemma IndexAny_range (s chars : string) :
  IndexAny s chars = -1 \/ 0 <= IndexAny s chars < len s.
Proof.
  induction s as [|c s IH]; [left; reflexivity|].
  rewrite len_String. pose proof (len_nonneg s). simpl.
  destruct (contains_byte chars c); [right; lia|].
  destruct (IndexAny s chars =? -1) eqn:E; [left; reflexivity|].
  apply Z.eqb_neq in E. right. lia.
Qed.

Lemma LastIndexAny_range (s chars : string) :
  LastIndexAny s chars = -1 \/ 0 <= LastIndexAny s chars < len s.
Proof.
  induction s as [|c s IH]; [left; reflexivity|].
  rewrite len_String. pose proof (len_nonneg s). simpl.
  destruct (LastIndexAny s chars =? -1) eqn:E.
  - destruct (contains_byte chars c); [right; lia|left; reflexivity].
  - apply Z.eqb_neq in E. right. lia.
Qed.

Lemma LastIndexAny_none (s chars : string) :
  LastIndexAny s chars = -1 <-> IndexAny s chars = -1.
Proof.
  induction s as [|c s IH]; [split; reflexivity|]. simpl.
  destruct (IndexAny_range s chars) as [Hi|Hi];
    destruct (LastIndexAny_range s chars) as [Hl|Hl].
  - rewrite Hi, Hl. simpl. destruct (contains_byte chars c); split; intros; lia.
  - exfalso. apply IH in Hi. lia.
  - exfalso. apply IH in Hl. lia.
  - destruct (Z.eqb_spec (LastIndexAny s chars) (-1)); [lia|].
    destruct (Z.eqb_spec (IndexAny s chars) (-1)); [lia|].
    destruct (contains_byte chars c); split; intros; lia.
Qed.

(** An addition that stays within the 64 bits of an [int] is exact. *)
Lemma int_add_exact (a b : Z) :
  - 2 ^ 63 <= a + b < 2 ^ 63 -> int_add a b = a + b.
Proof.
  intros H. unfold int_add, int.
  rewrite Z.mod_small by lia. lia.
Qed.

(** The level of a pattern that fits in memory is computed exactly. *)
Lemma level_exact (query : string) (offset : Z) :
  len query < 2 ^ 62 -> 0 <= offset <= 30000 ->
  int_add (int_add (Count query dot) 1) offset = Count query dot + 1 + offset.
Proof.
  intros Hlen Hoff.
  pose proof (Count_nonneg query dot). pose proof (Count_le_len query dot).
  rewrite (int_add_exact (Count query dot) 1) by lia.
  apply int_add_exact. lia.
Qed.

(** [Split] cuts at every separator and nowhere else. *)
Lemma Split_nonempty (s : list byte) (sep : byte) : Split s sep <> [].
Proof.
  destruct s as [|c s]; simpl; [discriminate|].
  destruct (Byte.eqb c sep); [discriminate|].
  destruct (Split s sep); discriminate.
Qed.

Lemma Split_Join (s : list byte) (sep : byte) : Join (Split s sep) sep = s.
Proof.
  induction s as [|c s IH]; [reflexivity|]. simpl.
  pose proof (Split_nonempty s sep) as Hne.
  destruct (Byte.eqb c sep) eqn:E.
  - apply Byte.byte_dec_bl in E. subst c.
    destruct (Split s sep) as [|row rows]; [contradiction|].
    simpl in *. now rewrite IH.
  - destruct (Split s sep) as [|row rows]; [contradiction|].
    destruct rows; simpl in *; now rewrite <- IH.
Qed.

Lemma Split_no_separator (s : list byte) (sep : byte) :
  Forall (fun row => ~ In sep row) (Split s sep).
Proof.
  induction s as [|c s IH]; simpl.
  - constructor; [intros []|constructor].
  - destruct (Byte.eqb c sep) eqn:E.
    + constructor; [intros []|exact IH].
    + apply Byte.eqb_false in E.
      destruct (Split s sep) as [|row rows]; [repeat constructor; intros [?|[]]; congruence|].
      inversion IH as [|? ? Hrow Hrows]; subst.
      constructor; [|exact Hrows].
      intros [?|?]; [congruence|contradiction].
Qed.

(** An assignment to an element keeps the length of the slice, so the
    bound [len(rows)] of the loops of [makeList] does not change. *)
Lemma store_len {A} (s s' : list A) (i : Z) (a : A) :
  store s i a = Ok s' -> slice_len s' = slice_len s.
Proof.
  unfold store, slice_len.
  destruct ((0 <=? i) && (i <? Z.of_nat (List.length s))); [|discriminate].
  intros [= <-]. now rewrite length_insert.
Qed.

Lemma substring_whole (s : string) : substring 0 (String.length s) s = s.
Proof. induction s as [|c s IH]; simpl; [reflexivity|]. now rewrite IH. Qed.

(** The slices taken by the heuristic never panic, and the separators they
    hold are the depths of the first and of the last wildcard. *)
Lemma slice_to_IndexWildcard (query : string) :
  match firstWildcardDepth query with
  | Some d =>
      IndexWildcard query <> -1 /\
      exists before,
        slice_to query (IndexWildcard query) = Ok before /\ Count before dot = d
  | None => IndexWildcard query = -1
  end.
Proof.
  unfold IndexWildcard, slice_to.
  induction query as [|c s IH]; [reflexivity|].
  cbn [firstWildcardDepth IndexAny]. unfold is_wildcard.
  destruct (contains_byte wildcards c).
  - split; [lia|]. exists EmptyString. split; reflexivity.
  - destruct (firstWildcardDepth s) as [d|].
    + destruct IH as (Hne & before & Hs & Hc).
      destruct (IndexAny_range s wildcards) as [Hi|Hi]; [contradiction|].
      destruct (Z.eqb_spec (IndexAny s wildcards) (-1)); [contradiction|].
      split; [lia|]. exists (String c before).
      rewrite len_String.
      destruct ((0 <=? IndexAny s wildcards) && (IndexAny s wildcards <=? len s)) eqn:E;
        [|discriminate].
      apply andb_prop in E as [E1 E2].
      apply Z.leb_le in E1, E2.
      replace ((0 <=? IndexAny s wildcards + 1)
               && (IndexAny s wildcards + 1 <=? len s + 1)) with true
        by holds.
      injection Hs as Hs. split.
      * replace (Z.to_nat (IndexAny s wildcards + 1))
          with (S (Z.to_nat (IndexAny s wildcards))) by lia.
        simpl. now rewrite Hs.
      * simpl. rewrite Hc. unfold is_separator. reflexivity.
    + rewrite IH. reflexivity.
Qed.

Lemma slice_from_IndexLastWildcard (query : string) :
  match lastWildcardDepth query with
  | Some d =>
      IndexLastWildcard query <> -1 /\
      exists after,
        slice_from query (IndexLastWildcard query) = Ok after /\ Count after dot = d
  | None => IndexLastWildcard query = -1
  end.
Proof.
  unfold IndexLastWildcard, slice_from.
  induction query as [|c s IH]; [reflexivity|].
  cbn [lastWildcardDepth LastIndexAny].
  destruct (lastWildcardDepth s) as [d|].
  - destruct IH as (Hne & after & Hs & Hc).
    destruct (LastIndexAny_range s wildcards) as [Hi|Hi]; [contradiction|].
    destruct (Z.eqb_spec (LastIndexAny s wildcards) (-1)); [contradiction|].
    split; [lia|]. exists after.
    rewrite len_String.
    destruct ((0 <=? LastIndexAny s wildcards) && (LastIndexAny s wildcards <=? len s)) eqn:E;
      [|discriminate].
    apply andb_prop in E as [E1 E2].
    apply Z.leb_le in E1, E2.
    replace ((0 <=? LastIndexAny s wildcards + 1)
             && (LastIndexAny s wildcards + 1 <=? len s + 1)) with true
      by holds.
    injection Hs as Hs. split; [|exact Hc].
    replace (Z.to_nat (LastIndexAny s wildcards + 1))
      with (S (Z.to_nat (LastIndexAny s wildcards))) by lia.
    simpl. now rewrite Hs.
  - rewrite IH. simpl. unfold is_wildcard.
    destruct (contains_byte wildcards c); [|reflexivity].
    split; [lia|]. exists (String c s). split; [|reflexivity].
    pose proof (len_nonneg s). rewrite len_String.
    replace (0 <=? len s + 1) with true by holds.
    simpl. now rewrite substring_whole.
Qed.

(** ** The direction resolver *)

Lemma wildcard_depths_agree (pattern : string) :
  firstWildcardDepth pattern = None <-> lastWildcardDepth pattern = None.
Proof.
  pose proof (slice_to_IndexWildcard pattern) as Hf.
  pose proof (slice_from_IndexLastWildcard pattern) as Hl.
  pose proof (LastIndexAny_none pattern wildcards) as Hn.
  unfold IndexWildcard, IndexLastWildcard in *.
  destruct (firstWildcardDepth pattern), (lastWildcardDepth pattern);
    split; intros; try discriminate; try reflexivity; exfalso.
  - destruct Hf as [Hf _]. apply Hf, Hn, Hl.
  - destruct Hl as [Hl _]. apply Hl, Hn, Hf.
Qed.

Lemma heuristic_resolved (pattern : string) : heuristic pattern <> IndexAuto.
Proof.
  unfold heuristic.
  destruct (firstWildcardDepth pattern), (lastWildcardDepth pattern);
    try discriminate.
  destruct (_ <? _); discriminate.
Qed.

Lemma resolution_resolved (idx : IndexFinder) (pattern : string) :
  resolution idx pattern <> IndexAuto.
Proof.
  unfold resolution.
  destruct (checkReverses idx pattern); try discriminate.
  apply heuristic_resolved.
Qed.

(** A resolved finder answers from its cache and is left as it is. *)
Lemma useReverse_cached (idx : IndexFinder) (query : string) :
  reverse idx <> IndexAuto ->
  useReverse idx query = Ok (reversed (reverse idx), idx).
Proof.
  intros Hres. funelim (useReverse idx query); try congruence.
  all: match goal with E : reverse _ = _ |- _ => rewrite E end; reflexivity.
Qed.

(** An unresolved finder caches [resolution] and answers with it. *)
Lemma useReverse_first (idx : IndexFinder) (query : string) :
  reverse idx = IndexAuto ->
  useReverse idx query =
    Ok (reversed (resolution idx query), set_reverse (resolution idx query) idx).
Proof.
  intros Hauto'. funelim (useReverse idx query); try congruence.
  all: try (rewrite useReverse_cached by (simpl; discriminate); simpl).
  all: clear H.
  all: unfold resolution; rewrite e; try reflexivity.
  all: unfold heuristic.
  all: pose proof (slice_to_IndexWildcard query) as Hf.
  all: pose proof (slice_from_IndexLastWildcard query) as Hl.
  all: pose proof (wildcard_depths_agree query) as Ha.
  all: destruct (firstWildcardDepth query) as [first|],
         (lastWildcardDepth query) as [last|];
    try (exfalso; destruct Ha as [Ha1 Ha2];
         (specialize (Ha1 eq_refl) || specialize (Ha2 eq_refl)); discriminate).
  all: repeat match goal with
         | E : (_ =? _) = true |- _ => apply Z.eqb_eq in E
         | E : (_ =? _) = false |- _ => apply Z.eqb_neq in E
         | E : _ /\ _ |- _ => destruct E
         | E : exists _, _ |- _ => destruct E
         end.
  all: try contradiction; try reflexivity; try congruence.
  all: match goal with
       | E1 : slice_to _ _ = Ok ?b, E2 : slice_to _ _ = Ok ?b',
         E3 : slice_from _ _ = Ok ?a, E4 : slice_from _ _ = Ok ?a' |- _ =>
           assert (b = b') by congruence; assert (a = a') by congruence; subst
       end.
  all: match goal with E : (_ <? _) = _ |- _ => rewrite E end; reflexivity.
Qed.

Lemma set_reverse_same (idx : IndexFinder) : set_reverse (reverse idx) idx = idx.
Proof. destruct idx; reflexivity. Qed.

Lemma direction_resolved (idx : IndexFinder) (pattern : string) :
  direction idx pattern <> IndexAuto.
Proof.
  unfold direction. destruct (reverse idx) eqn:E; try discriminate.
  apply resolution_resolved.
Qed.

(** [useReverse] never panics: it returns [direction] and caches it. *)
Lemma useReverse_direction (idx : IndexFinder) (query : string) :
  useReverse idx query =
    Ok (reversed (direction idx query), set_reverse (direction idx query) idx).
Proof.
  unfold direction. destruct (reverse idx) eqn:E.
  - now apply useReverse_first.
  - rewrite useReverse_cached by congruence.
    rewrite E, <- E, set_reverse_same. now rewrite E.
  - rewrite useReverse_cached by congruence.
    rewrite E, <- E, set_reverse_same. now rewrite E.
Qed.

(** ** The reverse rules *)

Lemma nonempty_len (s : string) : (0 <? len s) = negb (String.eqb s "").
Proof. destruct s; reflexivity. Qed.

Lemma skips_rule_matches (rule : IndexReverseRule) (query : string) :
  skips rule query = negb (rule_matches rule query).
Proof.
  unfold skips, rule_matches. rewrite !nonempty_len.
  destruct (String.eqb (Prefix rule) ""), (HasPrefix query (Prefix rule)),
    (String.eqb (Suffix rule) ""), (HasSuffix query (Suffix rule));
    simpl; try reflexivity;
    destruct (Regex rule) as [re|]; try reflexivity;
    destruct (re query); reflexivity.
Qed.

Lemma checkReverses_loop_skip (skipped rest : IndexReverses) (query : string)
    (conf : IndexDirection) :
  Forall (fun r => rule_matches r query = false) skipped ->
  checkReverses_loop (skipped ++ rest) query conf
  = checkReverses_loop rest query conf.
Proof.
  induction 1 as [|r skipped Hr _ IH]; [reflexivity|].
  simpl. now rewrite skips_rule_matches, Hr.
Qed.

Lemma checkReverses_first (idx : IndexFinder) (query : string)
    (skipped later : IndexReverses) (rule : IndexReverseRule) :
  confReverses idx = skipped ++ rule :: later ->
  Forall (fun r => rule_matches r query = false) skipped ->
  rule_matches rule query = true ->
  checkReverses idx query = IndexReverse (Reverse rule).
Proof.
  intros Hrules Hskipped Hrule. unfold checkReverses.
  rewrite Hrules, checkReverses_loop_skip by assumption.
  simpl. now rewrite skips_rule_matches, Hrule.
Qed.

Lemma checkReverses_none (idx : IndexFinder) (query : string) :
  Forall (fun r => rule_matches r query = false) (confReverses idx) ->
  checkReverses idx query = confReverse idx.
Proof.
  intros Hnone. unfold checkReverses.
  rewrite <- (app_nil_r (confReverses idx)).
  now rewrite checkReverses_loop_skip.
Qed.

(** ** The predicate builder *)

Lemma Execute_where_spec (idx : IndexFinder) (query : string) (from until : Z) :
  let d := direction idx query in
  let query' := if reversed d then ReverseString query else query in
  Execute_where idx query from until =
    Ok ([Eq "Level"
           (IntValue (int_add (int_add (Count query' dot) 1)
                        (levelOffset d (daily idx from until))));
         TreeGlob "Path" query';
         if daily idx from until
         then Format "Date >='%s' AND Date <= '%s'"
                [UnixFormat from "2006-01-02"; UnixFormat until "2006-01-02"]
         else Eq "Date" (StringValue DefaultTreeDate)],
        set_useDaily (daily idx from until) (set_reverse d idx)).
Proof.
  intros d query'. unfold Execute_where.
  rewrite useReverse_direction. fold d. cbn [mbind result_bind].
  change (dailyEnabled (set_reverse d idx) && (0 <? from) && (0 <? until))
    with (daily idx from until).
  pose proof (direction_resolved idx query) as Hd. fold d in Hd.
  destruct (daily idx from until).
  - rewrite !useReverse_cached by exact Hd. cbn [mbind result_bind].
    subst query'. simpl. destruct d; try contradiction; reflexivity.
  - rewrite !useReverse_cached by exact Hd. cbn [mbind result_bind].
    subst query'. simpl. destruct d; try contradiction; reflexivity.
Qed.

(** ** The response decoder *)

Lemma index_middle {A} (l1 l2 : list A) (x : A) :
  index (l1 ++ x :: l2) (Z.of_nat (List.length l1)) = Ok x.
Proof.
  unfold index.
  replace (0 <=? Z.of_nat (List.length l1)) with true
    by holds.
  rewrite Nat2Z.id, list_lookup_middle by reflexivity. reflexivity.
Qed.

Lemma store_middle {A} (l1 l2 : list A) (x y : A) :
  store (l1 ++ y :: l2) (Z.of_nat (List.length l1)) x = Ok (l1 ++ x :: l2).
Proof.
  unfold store, slice_len. rewrite length_app. simpl List.length.
  replace ((0 <=? Z.of_nat (List.length l1))
           && (Z.of_nat (List.length l1)
               <? Z.of_nat (List.length l1 + S (List.length l2)))) with true
    by holds.
  rewrite Nat2Z.id.
  replace (List.length l1) with (List.length l1 + 0)%nat at 1 by lia.
  rewrite insert_app_r. reflexivity.
Qed.

Lemma index_last (row : list byte) :
  row <> [] ->
  exists b, last row = Some b /\ index row (slice_len row - 1) = Ok b.
Proof.
  intros Hne. destruct (last row) as [b|] eqn:E.
  - exists b. split; [reflexivity|].
    rewrite last_lookup in E. unfold index, slice_len.
    destruct row as [|c row]; [contradiction|]. simpl List.length in *.
    replace (0 <=? Z.of_nat (S (List.length row)) - 1) with true
      by holds.
    replace (Z.to_nat (Z.of_nat (S (List.length row)) - 1))
      with (Nat.pred (S (List.length row))) by lia.
    rewrite E. reflexivity.
  - apply last_None in E. contradiction.
Qed.

(** One iteration on the loop state [kept ++ junk ++ x :: todo], where
    [kept] are the lines retained so far and [skip = len(junk)]. *)
Lemma compact_step_spec (onlySeries : bool) (kept junk todo : list (list byte))
    (x : list byte) :
  exists junk',
    compact_step onlySeries
      (Z.of_nat (List.length kept + List.length junk))
      (Z.of_nat (List.length junk), kept ++ junk ++ x :: todo)
    = Ok (Z.of_nat (List.length junk'),
          (kept ++ List.filter (retained onlySeries) [x]) ++ junk' ++ todo)
    /\ (List.length (kept ++ List.filter (retained onlySeries) [x])
        + List.length junk' = List.length kept + List.length junk + 1)%nat.
Proof.
  unfold compact_step.
  replace (kept ++ junk ++ x :: todo) with ((kept ++ junk) ++ x :: todo)
    by (now rewrite <- app_assoc).
  rewrite <- length_app, index_middle. cbn [mbind result_bind].
  assert (Hskip : forall rows : list (list byte),
    retained onlySeries x = false ->
    exists junk',
      Ok (Z.of_nat (List.length junk) + 1, (kept ++ junk) ++ x :: rows)
      = Ok (Z.of_nat (List.length junk'),
            (kept ++ List.filter (retained onlySeries) [x]) ++ junk' ++ rows)
      /\ (List.length (kept ++ List.filter (retained onlySeries) [x])
          + List.length junk' = List.length (kept ++ junk) + 1)%nat).
  { intros rows Hx. exists (junk ++ [x]). simpl. rewrite Hx.
    rewrite app_nil_r, !length_app. simpl. split; [|lia].
    f_equal. f_equal; [lia|]. now rewrite <- !app_assoc. }
  destruct x as [|c x'].
  - simpl (slice_len [] =? 0). cbv iota. apply Hskip. reflexivity.
  - set (x := c :: x') in *.
    replace (slice_len x =? 0) with false
      by (symmetry; apply Z.eqb_neq; unfold slice_len, x; simpl; lia).
    destruct (index_last x) as (b & Hlast & Hidx); [discriminate|].
    assert (Hret : retained onlySeries x = negb (onlySeries && Byte.eqb b dot_byte)).
    { unfold retained, is_directory, x. fold x. now rewrite Hlast. }
    assert (Hdir :
      (if onlySeries
       then last ← index x (slice_len x - 1); Ok (Byte.eqb last dot_byte)
       else Ok false) = Ok (negb (retained onlySeries x))).
    { rewrite Hret. destruct onlySeries; [|reflexivity].
      rewrite Hidx. cbn [mbind result_bind]. now rewrite negb_involutive. }
    rewrite Hdir. cbn [mbind result_bind]. clearbody x. clear Hdir Hret Hidx Hlast.
    destruct (retained onlySeries x) eqn:Hx; cbn [negb]; [|now apply Hskip].
    clear Hskip. cbn [List.filter]. rewrite Hx.
    destruct junk as [|j junk].
    + exists []. simpl.
      rewrite !app_nil_r, !length_app. simpl. split; [|lia].
      now rewrite <- app_assoc.
    + exists (junk ++ [x]).
      replace (0 <? Z.of_nat (List.length (j :: junk))) with true
        by holds.
      replace (Z.of_nat (List.length (kept ++ j :: junk))
               - Z.of_nat (List.length (j :: junk)))
        with (Z.of_nat (List.length kept))
        by (rewrite length_app; lia).
      replace ((kept ++ j :: junk) ++ x :: todo)
        with (kept ++ j :: (junk ++ x :: todo))
        by (now rewrite <- app_assoc).
      rewrite store_middle. cbn [mbind result_bind].
      rewrite !length_app. simpl. split; [|lia].
      f_equal. f_equal; [f_equal; lia|].
      rewrite <- !app_assoc. reflexivity.
Qed.

(** The compaction loop moves the retained lines, in order, to the front
    of [rows] and counts the others in [skip]. *)
Lemma compact_loop (onlySeries : bool) (todo : list (list byte)) :
  forall kept junk : list (list byte),
  exists junk',
    for_range (List.length todo)
      (Z.of_nat (List.length kept + List.length junk))
      (compact_step onlySeries)
      (Z.of_nat (List.length junk), kept ++ junk ++ todo)
    = Ok (Z.of_nat (List.length junk'),
          (kept ++ List.filter (retained onlySeries) todo) ++ junk').
Proof.
  induction todo as [|x todo IH]; intros kept junk.
  - exists junk. simpl. now rewrite !app_nil_r.
  - destruct (compact_step_spec onlySeries kept junk todo x) as (junk1 & Hstep & Hlen).
    cbn [List.length for_range]. rewrite Hstep. cbn [mbind result_bind].
    destruct (IH (kept ++ List.filter (retained onlySeries) [x]) junk1)
      as (junk' & Hloop).
    exists junk'.
    replace (Z.of_nat (List.length kept + List.length junk) + 1)
      with (Z.of_nat (List.length (kept ++ List.filter (retained onlySeries) [x])
                      + List.length junk1)) by lia.
    rewrite Hloop. f_equal. f_equal. f_equal.
    rewrite <- app_assoc. f_equal.
    simpl. destruct (retained onlySeries x); reflexivity.
Qed.

Lemma unreverse_loop (todo : list (list byte)) :
  forall done : list (list byte),
    for_range (List.length todo) (Z.of_nat (List.length done)) unreverse_step
      (done ++ todo)
    = Ok (done ++ map ReverseBytes todo).
Proof.
  induction todo as [|x todo IH]; intros done; [reflexivity|].
  assert (Hstep : unreverse_step (Z.of_nat (List.length done)) (done ++ x :: todo)
                  = Ok (done ++ ReverseBytes x :: todo)).
  { unfold unreverse_step. rewrite index_middle. cbn [mbind result_bind].
    apply store_middle. }
  cbn [List.length for_range]. rewrite Hstep. cbn [mbind result_bind].
  replace (done ++ ReverseBytes x :: todo) with ((done ++ [ReverseBytes x]) ++ todo)
    by (now rewrite <- app_assoc).
  replace (Z.of_nat (List.length done) + 1)
    with (Z.of_nat (List.length (done ++ [ReverseBytes x])))
    by (rewrite length_app; simpl; lia).
  rewrite IH. rewrite <- app_assoc. reflexivity.
Qed.

(** [makeList] never panics and never returns nil: it returns [decode] of
    the body in the direction [useReverse("")] gives, and caches that
    direction. *)
Lemma makeList_decode (idx : IndexFinder) (onlySeries : bool) (raw : list byte) :
  body idx = Some raw ->
  makeList idx onlySeries =
    Ok (Some (decode (direction idx "") onlySeries raw),
        set_reverse (direction idx "") idx).
Proof.
  intros Hbody. unfold makeList, decode. rewrite Hbody.
  destruct (compact_loop onlySeries (Split raw newline_byte) [] [])
    as (junk & Hloop).
  cbn [List.length app Nat.add] in Hloop. change (Z.of_nat 0) with 0 in Hloop.
  rewrite Hloop. cbn [mbind result_bind].
  set (lines := List.filter (retained onlySeries) (Split raw newline_byte)).
  assert (Hcut : reslice_to (lines ++ junk)
                   (slice_len (lines ++ junk) - Z.of_nat (List.length junk))
                 = Ok lines).
  { unfold reslice_to, slice_len. rewrite length_app.
    replace (Z.of_nat (List.length lines + List.length junk)
             - Z.of_nat (List.length junk))
      with (Z.of_nat (List.length lines)) by lia.
    replace ((0 <=? Z.of_nat (List.length lines))
             && (Z.of_nat (List.length lines)
                 <=? Z.of_nat (List.length lines + List.length junk)))
      with true
      by holds.
    now rewrite Nat2Z.id, take_app_length. }
  rewrite Hcut. cbn [mbind result_bind].
  rewrite useReverse_direction. cbn [mbind result_bind].
  destruct (reversed (direction idx "")); [|reflexivity].
  pose proof (unreverse_loop lines []) as Hrev.
  cbn [List.length app] in Hrev. change (Z.of_nat 0) with 0 in Hrev.
  rewrite Hrev. reflexivity.
Qed.

Lemma makeList_nil (idx : IndexFinder) (onlySeries : bool) :
  body idx = None -> makeList idx onlySeries = Ok (Some [], idx).
Proof. intros Hbody. unfold makeList. now rewrite Hbody. Qed.

Lemma direction_cached (idx : IndexFinder) (pattern : string) :
  reverse idx <> IndexAuto -> direction idx pattern = reverse idx.
Proof. unfold direction. destruct (reverse idx); congruence. Qed.

Lemma direction_none (idx : IndexFinder) (pattern : string) :
  reverse idx = IndexAuto ->
  confReverse idx = IndexAuto ->
  Forall (fun r => rule_matches r pattern = false) (confReverses idx) ->
  direction idx pattern = heuristic pattern.
Proof.
  intros Hauto Hconf Hnone. unfold direction, resolution.
  now rewrite Hauto, checkReverses_none, Hconf.
Qed.

Lemma is_literal_no_wildcard (pattern : string) :
  is_literal pattern = true -> firstWildcardDepth pattern = None.
Proof.
  induction pattern as [|c rest IH]; [reflexivity|]. simpl.
  destruct (is_wildcard c); [discriminate|]. simpl.
  intros H. now rewrite IH.
Qed.

Lemma makeList_spec (idx : IndexFinder) (onlySeries : bool) :
  makeList idx onlySeries =
    Ok (Some (decoded idx onlySeries),
        match body idx with
        | None => idx
        | Some _ => set_reverse (direction idx "") idx
        end).
Proof.
  unfold decoded. destruct (body idx) as [raw|] eqn:Hbody.
  - now apply makeList_decode.
  - now apply makeList_nil.
Qed.

(** A resolved finder is left as it is by [makeList]. *)
Lemma makeList_cached (idx : IndexFinder) (onlySeries : bool) :
  reverse idx <> IndexAuto ->
  makeList idx onlySeries = Ok (Some (decoded idx onlySeries), idx).
Proof.
  intros Hres. rewrite makeList_spec.
  destruct (body idx); [|reflexivity].
  now rewrite direction_cached, set_reverse_same.
Qed.

Lemma Execute_spec (idx : IndexFinder) (ctx : Context) (query : string)
    (from until : Z) :
  exists w raw err,
    Execute_where idx query from until
    = Ok (w, set_useDaily (daily idx from until)
               (set_reverse (direction idx query) idx)) /\
    Query (WithTable ctx (table idx)) (url idx) (selectPaths (table idx) w)
      (opts idx) = (raw, err) /\
    Execute idx ctx query from until
    = Ok (err, set_body raw
                 (set_useDaily (daily idx from until)
                    (set_reverse (direction idx query) idx))).
Proof.
  pose proof (Execute_where_spec idx query from until) as Hw. simpl in Hw.
  unfold Execute. rewrite Hw. cbn [mbind result_bind].
  cbn [table url opts set_useDaily set_reverse].
  match goal with |- context [Query ?c ?u ?q ?o] =>
    destruct (Query c u q o) as [raw err] eqn:HQ end.
  eexists _, raw, err. split; [reflexivity|]. split; [exact HQ|reflexivity].
Qed.

(** No call panics, and no call moves a resolved finder to another
    direction. *)
Lemma after_resolved (c : call) (idx : IndexFinder) :
  reverse idx <> IndexAuto ->
  exists idx', after c idx = Ok idx' /\ reverse idx' = reverse idx.
Proof.
  intros Hres. destruct c as [query|ctx query from until| |]; simpl.
  - rewrite useReverse_cached by assumption. eexists; split; reflexivity.
  - destruct (Execute_spec idx ctx query from until) as (w & raw & err & _ & _ & HE).
    rewrite HE. cbn [mbind result_bind]. eexists; split; [reflexivity|].
    simpl. now apply direction_cached.
  - unfold List. rewrite makeList_cached by assumption.
    eexists; split; reflexivity.
  - unfold Series. rewrite makeList_cached by assumption.
    eexists; split; reflexivity.
Qed.

Lemma after_all_resolved (cs : list call) :
  forall idx : IndexFinder,
    reverse idx <> IndexAuto ->
    exists idx', after_all cs idx = Ok idx' /\ reverse idx' = reverse idx.
Proof.
  induction cs as [|c cs IH]; intros idx Hres.
  - exists idx. split; reflexivity.
  - destruct (after_resolved c idx Hres) as (idx1 & Hc & Hr1).
    destruct (IH idx1) as (idx2 & Hcs & Hr2); [congruence|].
    exists idx2. simpl. rewrite Hc. cbn [mbind result_bind].
    split; [exact Hcs|congruence].
Qed.

Lemma filter_retained (onlySeries : bool) (rows : list (list byte)) :
  List.filter (retained onlySeries) rows =
    List.filter (fun row => negb (onlySeries && is_directory row))
      (List.filter (fun row => negb (slice_len row =? 0)) rows).
Proof.
  induction rows as [|row rows IH]; [reflexivity|].
  destruct row as [|c row]; simpl; [exact IH|].
  destruct (negb (onlySeries && is_directory (c :: row))); now rewrite IH.
Qed.

Lemma filter_Forall {A} (f : A -> bool) (l : list A) :
  Forall (fun x => f x = true) (List.filter f l).
Proof.
  induction l as [|x l IH]; [constructor|]. simpl.
  destruct (f x) eqn:E; [constructor|]; assumption.
Qed.

(** ** The claims of the specification *)

(** C1. For every query executed, the first clause of the predicate sets
    Level to the level of the pattern handed to the builder (its number of
    separators plus one) plus an offset selected exactly by the direction
    [useReverse] resolves for the finder and the pattern and by the daily
    mode of the call (daily enabled and both bounds positive): Reversed
    with daily gives 10000, Forward without daily 20000, Reversed without
    daily 30000 and Forward with daily 0.  In the Forward direction the
    pattern handed to the builder is the pattern itself; in the Reversed
    direction it is [ReverseString] of the pattern, and the level is that of
    the pattern whenever [ReverseString] keeps its number of separators.
    The pattern a.b.c, Forward, daily disabled, gives the predicate level
    20003. *)
Theorem Execute_level_offset :
  (forall (idx : IndexFinder) (ctx : Context) (query : string) (from until : Z),
    let d := direction idx query in
    let daily := dailyEnabled idx && (0 <? from) && (0 <? until) in
    let offset :=
      match d, daily with
      | IndexReversed, true => 10000
      | IndexDirect, false => 20000
      | IndexReversed, false => 30000
      | IndexDirect, true => 0
      | IndexAuto, _ => 0
      end in
    let pattern := if reversed d then ReverseString query else query in
    let idx' := set_useDaily daily (set_reverse d idx) in
    d <> IndexAuto /\
    useReverse idx query = Ok (reversed d, set_reverse d idx) /\
    exists w raw err,
      Execute_where idx query from until = Ok (w, idx') /\
      Query (WithTable ctx (table idx)) (url idx) (selectPaths (table idx) w)
        (opts idx) = (raw, err) /\
      Execute idx ctx query from until = Ok (err, set_body raw idx') /\
      head w =
        Some (Eq "Level"
                (IntValue (int_add (int_add (Count pattern dot) 1) offset))) /\
      (Count (ReverseString query) dot = Count query dot ->
        head w =
          Some (Eq "Level"
                  (IntValue (int_add (int_add (Count query dot) 1) offset))))) /\
  (forall (idx : IndexFinder) (from until : Z),
    direction idx "a.b.c" = IndexDirect ->
    dailyEnabled idx = false ->
    exists idx',
      Execute_where idx "a.b.c" from until =
        Ok ([Eq "Level" (IntValue 20003); TreeGlob "Path" "a.b.c";
             Eq "Date" (StringValue "1970-02-12")], idx')).
Proof.
  split.
  - intros idx ctx query from until d daily0 offset pattern idx'.
    pose proof (direction_resolved idx query) as Hd. fold d in Hd.
    split; [exact Hd|]. split; [apply useReverse_direction|].
    destruct (Execute_spec idx ctx query from until) as (w & raw & err & Hw & HQ & HE).
    pose proof (Execute_where_spec idx query from until) as Hspec. simpl in Hspec.
    rewrite Hw in Hspec. injection Hspec as Hspec.
    exists w, raw, err.
    split; [exact Hw|]. split; [exact HQ|]. split; [exact HE|].
    assert (Hoffset : levelOffset d daily0 = offset)
      by (subst offset; destruct d, daily0; try reflexivity; contradiction).
    assert (Hlevel : head w =
      Some (Eq "Level" (IntValue (int_add (int_add (Count pattern dot) 1) offset)))).
    { rewrite Hspec, <- Hoffset. reflexivity. }
    split; [exact Hlevel|].
    intros Hkeeps. rewrite Hlevel. subst pattern.
    destruct (reversed d); [now rewrite Hkeeps|reflexivity].
  - intros idx from until Hd Hdaily.
    pose proof (Execute_where_spec idx "a.b.c" from until) as Hspec.
    simpl in Hspec. rewrite Hd in Hspec.
    unfold daily in Hspec. rewrite Hdaily in Hspec. simpl in Hspec.
    eexists. exact Hspec.
Qed.

(** C2. For every pattern with at least one wildcard, when the finder is
    not yet resolved, no direction is configured and no reverse rule
    matches, [useReverse] chooses Reversed if and only if the number of
    separators before the first wildcard is strictly less than the number
    of separators from the last wildcard to the end of the pattern, and
    Forward otherwise. *)
Theorem useReverse_wildcard_depths (idx : IndexFinder) (pattern : string)
    (first last : Z) :
  reverse idx = IndexAuto ->
  confReverse idx = IndexAuto ->
  Forall (fun r => rule_matches r pattern = false) (confReverses idx) ->
  firstWildcardDepth pattern = Some first ->
  lastWildcardDepth pattern = Some last ->
  useReverse idx pattern =
    Ok (first <? last,
        set_reverse (if first <? last then IndexReversed else IndexDirect) idx).
Proof.
  intros Hauto Hconf Hnone Hfirst Hlast.
  rewrite useReverse_direction, direction_none by assumption.
  unfold heuristic. rewrite Hfirst, Hlast.
  destruct (first <? last); reflexivity.
Qed.

(** C3. Direction resolution is one-shot: once a call of [useReverse] has
    returned, the direction is Forward or Reversed, every later call
    returns the same cached value and leaves the finder as it is, whatever
    the pattern, and after any sequence of calls of the finder's methods
    the direction is still the same, never Auto again. *)
Theorem useReverse_one_shot (idx : IndexFinder) (query : string) (r : bool)
    (idx1 : IndexFinder) :
  useReverse idx query = Ok (r, idx1) ->
  reverse idx1 <> IndexAuto /\
  r = reversed (reverse idx1) /\
  (forall query', useReverse idx1 query' = Ok (r, idx1)) /\
  (forall cs : list call,
    exists idx2,
      after_all cs idx1 = Ok idx2 /\
      reverse idx2 = reverse idx1 /\
      forall query', useReverse idx2 query' = Ok (r, idx2)).
Proof.
  rewrite useReverse_direction. intros [= <- <-].
  pose proof (direction_resolved idx query) as Hd.
  cbn [reverse set_reverse].
  split; [exact Hd|]. split; [reflexivity|]. split.
  - intros query'. now rewrite useReverse_cached.
  - intros cs.
    destruct (after_all_resolved cs (set_reverse (direction idx query) idx) Hd)
      as (idx2 & Hcs & Hr).
    exists idx2. split; [exact Hcs|]. split; [exact Hr|].
    intros query'. cbn [reverse set_reverse] in Hr.
    rewrite useReverse_cached by congruence. now rewrite Hr.
Qed.

(** C4. For every pattern with no wildcard, when the finder is not yet
    resolved, no direction is configured and no reverse rule matches, the
    resolved direction is Forward. *)
Theorem useReverse_literal (idx : IndexFinder) (pattern : string) :
  reverse idx = IndexAuto ->
  confReverse idx = IndexAuto ->
  Forall (fun r => rule_matches r pattern = false) (confReverses idx) ->
  is_literal pattern = true ->
  useReverse idx pattern = Ok (false, set_reverse IndexDirect idx).
Proof.
  intros Hauto Hconf Hnone Hlit.
  rewrite useReverse_direction, direction_none by assumption.
  unfold heuristic. now rewrite (is_literal_no_wildcard pattern Hlit).
Qed.

(** C5. Decoding never fails: for every finder, whatever its response
    body, [List] and [Series] return without a panic a slice that is not
    nil, and for a nil or an empty body that slice is empty. *)
Theorem makeList_never_fails (idx : IndexFinder) :
  (exists rows idx', List idx = Ok (Some rows, idx')) /\
  (exists rows idx', Series idx = Ok (Some rows, idx')) /\
  (forall onlySeries,
    makeList (set_body None idx) onlySeries = Ok (Some [], set_body None idx)) /\
  (forall onlySeries,
    exists idx', makeList (set_body (Some []) idx) onlySeries = Ok (Some [], idx')).
Proof.
  unfold List, Series. rewrite !makeList_spec.
  split; [eexists _, _; reflexivity|]. split; [eexists _, _; reflexivity|].
  split; intros onlySeries; rewrite makeList_spec.
  - reflexivity.
  - eexists. unfold decoded, decode. cbn [body set_body].
    destruct onlySeries, (reversed _); reflexivity.
Qed.

(** C6, as amended. For every response body the decoder splits on the
    newline byte, drops the empty lines and, for [Series], exactly the
    lines whose final byte is the separator, keeps the others in their
    order and, when the direction is Reversed, passes each of them through
    [ReverseBytes].  When the direction is Forward, [Series] returns no
    entry ending in the separator and [List]'s output without its
    directory entries is [Series]'s output; the body "a.b.\na.b.c\n" then
    gives List = ["a.b.", "a.b.c"] and Series = ["a.b.c"]. *)
Theorem makeList_retains (idx : IndexFinder) (raw : list byte) :
  body idx = Some raw ->
  let lines := Split raw newline_byte in
  let nonempty := List.filter (fun row => negb (slice_len row =? 0)) lines in
  let restore :=
    if reversed (direction idx "") then map ReverseBytes else fun rows => rows in
  let idx' := set_reverse (direction idx "") idx in
  List idx = Ok (Some (restore nonempty), idx') /\
  Series idx =
    Ok (Some (restore (List.filter (fun row => negb (is_directory row)) nonempty)),
        idx') /\
  (direction idx "" = IndexDirect ->
    exists all series,
      List idx = Ok (Some all, idx') /\
      Series idx = Ok (Some series, idx') /\
      Forall (fun row => is_directory row = false) series /\
      List.filter (fun row => negb (is_directory row)) all = series) /\
  (direction idx "" = IndexDirect ->
    raw = line "a.b." ++ line "a.b.c" ->
    List idx = Ok (Some [bytes "a.b."; bytes "a.b.c"], idx') /\
    Series idx = Ok (Some [bytes "a.b.c"], idx')).
Proof.
  intros Hbody lines nonempty restore idx'.
  assert (HL : List idx = Ok (Some (restore nonempty), idx')).
  { unfold List. rewrite (makeList_decode idx false raw Hbody).
    unfold decode. rewrite filter_retained. fold lines. simpl.
    rewrite List.filter_true. subst restore nonempty.
    destruct (reversed _); reflexivity. }
  assert (HS : Series idx =
    Ok (Some (restore (List.filter (fun row => negb (is_directory row)) nonempty)),
        idx')).
  { unfold Series. rewrite (makeList_decode idx true raw Hbody).
    unfold decode. rewrite filter_retained. fold lines. simpl.
    subst restore nonempty. destruct (reversed _); reflexivity. }
  split; [exact HL|]. split; [exact HS|]. split.
  - intros Hd. eexists _, _. split; [exact HL|]. split; [exact HS|].
    subst restore. rewrite Hd. simpl. split; [|reflexivity].
    eapply Forall_impl; [apply filter_Forall|].
    intros row Hrow. simpl in Hrow. now apply negb_true_iff.
  - intros Hd ->. rewrite HL, HS. subst restore nonempty lines.
    rewrite Hd. split; reflexivity.
Qed.

(** C7. For every [Execute(pattern, from, until)], daily mode is used if
    and only if the daily-enabled flag is set and both [from] and [until]
    are strictly positive; in daily mode the last clause of the predicate
    bounds Date below by [from] and above by [until], both inclusive and
    both formatted with the layout 2006-01-02 (YYYY-MM-DD), and otherwise
    it sets Date equal to the sentinel tree date 1970-02-12. *)
Theorem Execute_date_clause (idx : IndexFinder) (query : string) (from until : Z) :
  exists w idx',
    Execute_where idx query from until = Ok (w, idx') /\
    (useDaily idx' = true <-> dailyEnabled idx = true /\ 0 < from /\ 0 < until) /\
    last w =
      Some (if useDaily idx'
            then Format "Date >='%s' AND Date <= '%s'"
                   [UnixFormat from "2006-01-02"; UnixFormat until "2006-01-02"]
            else Eq "Date" (StringValue "1970-02-12")).
Proof.
  pose proof (Execute_where_spec idx query from until) as Hspec. simpl in Hspec.
  eexists _, _. split; [exact Hspec|].
  cbn [useDaily set_useDaily]. split.
  - unfold daily. rewrite !andb_true_iff, !Z.ltb_lt.
    split; [intros [[? ?] ?]|intros (? & ? & ?)]; repeat split; assumption.
  - destruct (daily idx from until); reflexivity.
Qed.

(** C8. When a finder is not yet resolved (in particular when its
    configured direction is Auto), [checkReverses] consults the reverse
    rules in order and returns the direction of the first rule all of
    whose present fields match the pattern, whatever the later rules and
    the configured direction are; a direction Forward or Reversed of that
    rule is the one [useReverse] returns and caches, in place of the
    wildcard heuristic. *)
Theorem checkReverses_first_match (idx : IndexFinder) (pattern : string)
    (skipped later : IndexReverses) (rule : IndexReverseRule) :
  reverse idx = IndexAuto ->
  confReverses idx = skipped ++ rule :: later ->
  Forall (fun r => rule_matches r pattern = false) skipped ->
  rule_matches rule pattern = true ->
  checkReverses idx pattern = IndexReverse (Reverse rule) /\
  (IndexReverse (Reverse rule) <> IndexAuto ->
    useReverse idx pattern =
      Ok (reversed (IndexReverse (Reverse rule)),
          set_reverse (IndexReverse (Reverse rule)) idx)).
Proof.
  intros Hauto Hrules Hskipped Hrule.
  pose proof (checkReverses_first idx pattern skipped later rule
                Hrules Hskipped Hrule) as Hcheck.
  split; [exact Hcheck|]. intros Hforced.
  rewrite useReverse_first by assumption.
  unfold resolution. rewrite Hcheck.
  destruct (IndexReverse (Reverse rule)); [contradiction| |]; reflexivity.
Qed.

(** C9. After an [Execute], which always returns, any sequence of [List]
    and [Series] calls leaves the finder, and so its response body, as
    [Execute] left it, and each call returns what [decoded] derives from
    that body; in particular two [List] calls return equal slices. *)
Theorem decodes_after_Execute (idx : IndexFinder) (ctx : Context)
    (query : string) (from until : Z) :
  exists err idx1,
    Execute idx ctx query from until = Ok (err, idx1) /\
    (forall calls : list bool,
      decodes calls idx1 =
        Ok (map (fun onlySeries => Some (decoded idx1 onlySeries)) calls, idx1)) /\
    exists rows,
      List idx1 = Ok (Some rows, idx1) /\
      decodes [false; false] idx1 = Ok ([Some rows; Some rows], idx1).
Proof.
  destruct (Execute_spec idx ctx query from until) as (w & raw & err & _ & _ & HE).
  eexists err, _. split; [exact HE|].
  set (idx1 := set_body raw _).
  assert (Hres : reverse idx1 <> IndexAuto)
    by (apply (direction_resolved idx query)).
  assert (Hcalls : forall calls : list bool,
    decodes calls idx1 =
      Ok (map (fun onlySeries => Some (decoded idx1 onlySeries)) calls, idx1)).
  { induction calls as [|b calls IH]; [reflexivity|].
    cbn [decodes map]. rewrite makeList_cached by exact Hres.
    cbn [mbind result_bind]. rewrite IH. reflexivity. }
  split; [exact Hcalls|].
  exists (decoded idx1 false). split.
  - unfold List. now apply makeList_cached.
  - apply Hcalls.
Qed.

(** C10. If the first reverse rule all of whose present fields match the
    pattern carries the Auto direction, the scan stops at it: whatever the
    later rules and the configured direction are, [checkReverses] returns
    Auto, no direction is forced and [useReverse] returns and caches the
    direction of the wildcard heuristic. *)
Theorem checkReverses_auto_rule (idx : IndexFinder) (pattern : string)
    (skipped later : IndexReverses) (rule : IndexReverseRule) :
  reverse idx = IndexAuto ->
  confReverses idx = skipped ++ rule :: later ->
  Forall (fun r => rule_matches r pattern = false) skipped ->
  rule_matches rule pattern = true ->
  IndexReverse (Reverse rule) = IndexAuto ->
  checkReverses idx pattern = IndexAuto /\
  useReverse idx pattern =
    Ok (reversed (heuristic pattern), set_reverse (heuristic pattern) idx).
Proof.
  intros Hauto Hrules Hskipped Hrule Hdir.
  pose proof (checkReverses_first idx pattern skipped later rule
                Hrules Hskipped Hrule) as Hcheck.
  rewrite Hdir in Hcheck. split; [exact Hcheck|].
  rewrite useReverse_first by assumption.
  unfold resolution. now rewrite Hcheck.
Qed.

(** ** Further properties of the finder *)

(** *** Lines and bodies *)

Lemma Split_app_separator (a b : list byte) (sep : byte) :
  Split (a ++ sep :: b) sep = Split a sep ++ Split b sep.
Proof.
  induction a as [|c a IH]; simpl.
  - now rewrite (Byte.byte_dec_lb (@eq_refl _ sep)).
  - destruct (Byte.eqb c sep); [now rewrite IH|].
    rewrite IH. pose proof (Split_nonempty a sep) as Hne.
    destruct (Split a sep); [contradiction|reflexivity].
Qed.

Lemma Split_whole (row : list byte) (sep : byte) :
  forallb (fun c => negb (Byte.eqb c sep)) row = true -> Split row sep = [row].
Proof.
  induction row as [|c row IH]; [reflexivity|]. simpl.
  intros H. apply andb_prop in H as [Hc Hrow].
  apply negb_true_iff in Hc. rewrite Hc, (IH Hrow). reflexivity.
Qed.

Lemma is_line_whole (row : list byte) :
  is_line row = true ->
  row <> [] /\ forallb (fun c => negb (Byte.eqb c newline_byte)) row = true.
Proof. destruct row; [discriminate|]. intros H. split; [discriminate|exact H]. Qed.

Lemma Split_unlines (rows : list (list byte)) :
  forallb is_line rows = true ->
  Split (unlines rows) newline_byte = rows ++ [[]].
Proof.
  induction rows as [|row rows IH]; [reflexivity|].
  cbn [forallb unlines flat_map]. intros H. apply andb_prop in H as [Hrow Hrows].
  rewrite <- app_assoc. cbn [app]. rewrite Split_app_separator.
  fold (unlines rows). rewrite (IH Hrows).
  now rewrite (Split_whole row newline_byte (proj2 (is_line_whole row Hrow))).
Qed.

Lemma retained_is_line (rows : list (list byte)) :
  forallb is_line rows = true -> List.filter (retained false) rows = rows.
Proof.
  induction rows as [|row rows IH]; [reflexivity|]. simpl.
  intros H. apply andb_prop in H as [Hrow Hrows].
  destruct row; [discriminate|]. simpl. now rewrite (IH Hrows).
Qed.

Lemma filter_sublist {A} (f : A -> bool) (l : list A) :
  sublist (List.filter f l) l.
Proof.
  induction l as [|x l IH]; [constructor|]. simpl.
  destruct (f x); now constructor.
Qed.

Lemma map_sublist {A B} (f : A -> B) (l1 l2 : list A) :
  sublist l1 l2 -> sublist (map f l1) (map f l2).
Proof. induction 1; simpl; now constructor. Qed.

Lemma decode_app (d : IndexDirection) (onlySeries : bool) (a b : list byte) :
  decode d onlySeries (a ++ newline_byte :: b) =
    decode d onlySeries a ++ decode d onlySeries b.
Proof.
  unfold decode. rewrite Split_app_separator, List.filter_app.
  destruct (reversed d); [apply map_app|reflexivity].
Qed.

Lemma retained_lines (onlySeries : bool) (raw : list byte) :
  forallb is_line (List.filter (retained onlySeries) (Split raw newline_byte)) = true.
Proof.
  pose proof (Split_no_separator raw newline_byte) as Hsep.
  induction Hsep as [|row rows Hrow _ IH]; [reflexivity|].
  destruct row as [|c row]; [exact IH|].
  cbn [List.filter retained].
  destruct (negb (onlySeries && is_directory (c :: row))); [|exact IH].
  cbn [forallb]. rewrite IH, andb_true_r.
  cbn [is_line]. apply forallb_forall. intros b Hb.
  apply negb_true_iff. destruct (Byte.eqb b newline_byte) eqn:E; [|reflexivity].
  apply Byte.byte_dec_bl in E. subst b. contradiction.
Qed.

Lemma retained_series_sublist (rows : list (list byte)) :
  sublist (List.filter (retained true) rows) (List.filter (retained false) rows).
Proof.
  induction rows as [|row rows IH]; [constructor|].
  destruct row as [|c row]; [exact IH|].
  cbn [List.filter retained andb negb].
  destruct (negb (is_directory (c :: row))); now constructor.
Qed.

Lemma decode_unlines (d : IndexDirection) (onlySeries : bool)
    (rows : list (list byte)) :
  forallb is_line rows = true ->
  decode d onlySeries (unlines rows) =
    let kept := List.filter (fun row => negb (onlySeries && is_directory row)) rows in
    if reversed d then map ReverseBytes kept else kept.
Proof.
  intros Hrows. unfold decode.
  rewrite (Split_unlines rows Hrows), filter_retained, List.filter_app.
  cbn [List.filter slice_len List.length Z.of_nat Z.eqb negb]. rewrite !app_nil_r.
  replace (List.filter (fun row => negb (slice_len row =? 0)) rows) with rows;
    [reflexivity|].
  rewrite <- (retained_is_line rows Hrows) at 1.
  apply List.filter_ext. intros [|c row]; reflexivity.
Qed.

(** X1. In every direction and for every body, what [Series] returns is
    what [List] returns with some entries left out and the others in the
    same order; both calls leave the same finder behind. *)
Theorem Series_sublist_List (idx : IndexFinder) :
  exists all series idx',
    List idx = Ok (Some all, idx') /\
    Series idx = Ok (Some series, idx') /\
    sublist series all.
Proof.
  unfold List, Series. rewrite !makeList_spec.
  eexists _, _, _. split; [reflexivity|]. split; [reflexivity|].
  unfold decoded. destruct (body idx) as [raw|]; [|constructor].
  unfold decode. destruct (reversed _).
  - apply map_sublist, retained_series_sublist.
  - apply retained_series_sublist.
Qed.

(** X2. A body that lists paths, each non-empty, free of newline bytes and
    ended by a newline, decodes to exactly these paths in their order:
    [List] returns them all and [Series] those that do not end in the
    separator, each passed through [ReverseBytes] when the direction is
    Reversed. *)
Theorem makeList_unlines (idx : IndexFinder) (rows : list (list byte)) :
  forallb is_line rows = true ->
  body idx = Some (unlines rows) ->
  reverse idx <> IndexAuto ->
  let restore := if reversed (reverse idx) then map ReverseBytes else fun l => l in
  List idx = Ok (Some (restore rows), idx) /\
  Series idx =
    Ok (Some (restore (List.filter (fun row => negb (is_directory row)) rows)), idx).
Proof.
  intros Hrows Hbody Hres restore. unfold List, Series.
  rewrite !makeList_cached by exact Hres. unfold decoded. rewrite Hbody.
  rewrite (direction_cached idx "" Hres), !decode_unlines by exact Hrows.
  subst restore. cbn [andb negb]. rewrite List.filter_true.
  destruct (reversed (reverse idx)); split; reflexivity.
Qed.

(** X3. Decoding goes line by line: the entries of a body [a], a newline
    and a body [b] are the entries of [a] followed by the entries of [b],
    for [List] and for [Series] alike; so a newline at the end of the body
    adds no entry. *)
Theorem makeList_app (idx : IndexFinder) (onlySeries : bool) (a b : list byte) :
  exists rows_a rows_b idx_a idx_b idx_ab,
    makeList (set_body (Some a) idx) onlySeries = Ok (Some rows_a, idx_a) /\
    makeList (set_body (Some b) idx) onlySeries = Ok (Some rows_b, idx_b) /\
    makeList (set_body (Some (a ++ newline_byte :: b)) idx) onlySeries
      = Ok (Some (rows_a ++ rows_b), idx_ab) /\
    exists idx_n,
      makeList (set_body (Some (a ++ [newline_byte])) idx) onlySeries
        = Ok (Some rows_a, idx_n).
Proof.
  set (d := direction idx "").
  assert (Hd : forall raw, direction (set_body (Some raw) idx) "" = d) by reflexivity.
  assert (Hm : forall raw,
    makeList (set_body (Some raw) idx) onlySeries
    = Ok (Some (decode d onlySeries raw), set_reverse d (set_body (Some raw) idx))).
  { intros raw.
    rewrite (makeList_decode (set_body (Some raw) idx) onlySeries raw eq_refl).
    now rewrite Hd. }
  exists (decode d onlySeries a), (decode d onlySeries b).
  eexists _, _, _. split; [apply Hm|]. split; [apply Hm|]. split.
  - rewrite Hm, decode_app. reflexivity.
  - eexists. rewrite Hm, decode_app. unfold decode at 2.
    cbn [Split List.filter retained].
    destruct (reversed d); cbn [map]; rewrite app_nil_r; reflexivity.
Qed.

(** X4. No entry that [List] or [Series] returns in the Forward direction
    is empty or holds a newline byte; in the Reversed direction the entries
    are the images under [ReverseBytes] of such lines. *)
Theorem makeList_entries (idx : IndexFinder) (onlySeries : bool) :
  reverse idx <> IndexAuto ->
  exists rows lines,
    makeList idx onlySeries = Ok (Some rows, idx) /\
    forallb is_line lines = true /\
    rows = (if reversed (reverse idx) then map ReverseBytes lines else lines) /\
    (reverse idx = IndexDirect -> forallb is_line rows = true).
Proof.
  intros Hres. rewrite makeList_cached by exact Hres. unfold decoded.
  rewrite (direction_cached idx "" Hres).
  destruct (body idx) as [raw|].
  - exists (decode (reverse idx) onlySeries raw),
      (List.filter (retained onlySeries) (Split raw newline_byte)).
    split; [reflexivity|]. split; [apply retained_lines|].
    unfold decode. split; [reflexivity|].
    intros ->. apply retained_lines.
  - exists [], []. split; [reflexivity|]. split; [reflexivity|].
    split; [now destruct (reversed _)|reflexivity].
Qed.

(** X5. In the Forward direction decoding normalises the body: the body
    that lists the entries [List] returned decodes to the same entries. *)
Theorem List_unlines_List (idx : IndexFinder) (rows : list (list byte)) :
  reverse idx = IndexDirect ->
  List idx = Ok (Some rows, idx) ->
  List (set_body (Some (unlines rows)) idx)
    = Ok (Some rows, set_body (Some (unlines rows)) idx).
Proof.
  intros Hdir HL.
  assert (Hres : reverse idx <> IndexAuto) by congruence.
  assert (Hrows : forallb is_line rows = true).
  { unfold List in HL. rewrite makeList_cached in HL by exact Hres.
    injection HL as HL. subst rows. unfold decoded.
    destruct (body idx) as [raw|]; [|reflexivity].
    rewrite (direction_cached idx "" Hres), Hdir. apply retained_lines. }
  pose proof (makeList_unlines (set_body (Some (unlines rows)) idx) rows
                Hrows eq_refl Hres) as [HL' _].
  cbn [reverse set_body] in HL'. rewrite Hdir in HL'. exact HL'.
Qed.

(** *** Rules and the configured direction *)

Lemma HasPrefix_append (s prefix : string) :
  HasPrefix s prefix = true <-> exists rest, s = String.append prefix rest.
Proof.
  unfold HasPrefix. revert s.
  induction prefix as [|a prefix IH]; intros s; simpl.
  - split; [intros _; now exists s|intros _; now destruct s].
  - destruct s as [|b s].
    + split; [discriminate|intros [rest H]; discriminate].
    + cbn [String.prefix String.append]. destruct (ascii_dec a b) as [->|Hne].
      * split.
        -- intros H. apply (IH s) in H as [rest H]. exists rest. now rewrite H.
        -- intros [rest H]. apply (IH s). exists rest. now injection H.
      * split; [discriminate|]. intros [rest H]. injection H as H _. congruence.
Qed.

Lemma length_append (a b : string) :
  String.length (String.append a b) = (String.length a + String.length b)%nat.
Proof. induction a as [|c a IH]; simpl; [reflexivity|]. now rewrite IH. Qed.

Lemma substring_append (a b : string) :
  substring (String.length a) (String.length b) (String.append a b) = b.
Proof. induction a as [|c a IH]; simpl; [apply substring_whole|exact IH]. Qed.

Lemma append_substring (n : nat) (s : string) :
  (n <= String.length s)%nat ->
  s = String.append (substring 0 n s) (substring n (String.length s - n) s).
Proof.
  revert s. induction n as [|n IH]; intros s Hn.
  - simpl. rewrite Nat.sub_0_r, substring_whole. now destruct s.
  - destruct s as [|c s]; [simpl in Hn; lia|].
    simpl. f_equal. apply IH. simpl in Hn. lia.
Qed.

Lemma HasSuffix_append (s suffix : string) :
  HasSuffix s suffix = true <-> exists front, s = String.append front suffix.
Proof.
  unfold HasSuffix, len. rewrite andb_true_iff, Z.leb_le, String.eqb_eq. split.
  - intros [Hlen Hsub].
    exists (substring 0 (String.length s - String.length suffix) s).
    pose proof (append_substring (String.length s - String.length suffix) s) as H.
    replace (String.length s - (String.length s - String.length suffix))%nat
      with (String.length suffix) in H by lia.
    rewrite Hsub in H. apply H. lia.
  - intros [front ->]. rewrite length_append. split; [lia|].
    replace (String.length front + String.length suffix - String.length suffix)%nat
      with (String.length front) by lia.
    apply substring_append.
Qed.

Lemma checkReverses_skipped (idx : IndexFinder) (query : string) :
  Forall (fun r => skips r query = true) (confReverses idx) ->
  checkReverses idx query = confReverse idx.
Proof.
  intros Hall. apply checkReverses_none.
  eapply Forall_impl; [exact Hall|]. intros r Hr. simpl in Hr.
  rewrite skips_rule_matches in Hr. now apply negb_true_iff.
Qed.

(** X6. A rule is applied to a pattern exactly when the pattern starts with
    its prefix, ends with its suffix and, when it has a regular expression,
    is matched by it; an empty prefix or suffix excludes no pattern. *)
Theorem skips_semantics (rule : IndexReverseRule) (query : string) :
  skips rule query = false <->
    (exists rest, query = String.append (Prefix rule) rest) /\
    (exists front, query = String.append front (Suffix rule)) /\
    (forall re, Regex rule = Some re -> re query <> None).
Proof.
  rewrite <- HasPrefix_append, <- HasSuffix_append. unfold skips.
  assert (Hp : Prefix rule = EmptyString -> HasPrefix query (Prefix rule) = true)
    by (intros ->; now destruct query).
  assert (Hs : Suffix rule = EmptyString -> HasSuffix query (Suffix rule) = true).
  { intros ->. apply HasSuffix_append. exists query.
    clear. induction query as [|c q IH]; simpl; [reflexivity|]. now rewrite <- IH. }
  rewrite !nonempty_len.
  destruct (String.eqb_spec (Prefix rule) EmptyString) as [Ep|Ep];
    [rewrite (Hp Ep)|]; cbn [negb andb];
    destruct (String.eqb_spec (Suffix rule) EmptyString) as [Es|Es];
    try rewrite (Hs Es); cbn [negb andb];
    destruct (HasPrefix query (Prefix rule)), (HasSuffix query (Suffix rule));
    cbn [negb andb];
    destruct (Regex rule) as [re|];
    try destruct (re query) eqn:Ere;
    split; try discriminate; try reflexivity;
    try (intros (H1 & H2 & H3); try discriminate; exfalso;
         apply (H3 re eq_refl); exact Ere);
    intros _; (split; [reflexivity|]); (split; [reflexivity|]);
    intros re' Hre'; try discriminate;
    injection Hre' as <-; rewrite Ere; discriminate.
Qed.

(** X7. When every rule is skipped for a pattern (in particular when there
    is no rule) and the configured direction is Forward or Reversed, a
    finder that is not yet resolved returns and caches the configured
    direction, wherever the wildcards of the pattern are. *)
Theorem useReverse_configured (idx : IndexFinder) (query : string) :
  reverse idx = IndexAuto ->
  Forall (fun r => skips r query = true) (confReverses idx) ->
  confReverse idx <> IndexAuto ->
  useReverse idx query =
    Ok (reversed (confReverse idx), set_reverse (confReverse idx) idx).
Proof.
  intros Hauto Hall Hconf. rewrite useReverse_first by exact Hauto.
  unfold resolution. rewrite (checkReverses_skipped idx query Hall).
  destruct (confReverse idx); [contradiction| |]; reflexivity.
Qed.

(** X8. A rule without prefix, suffix and regular expression catches every
    pattern: with such a rule in the list, [checkReverses] returns the
    direction of a rule of the list that is not skipped, and never the
    configured direction. *)
Theorem checkReverses_catch_all (idx : IndexFinder) (query : string)
    (rule : IndexReverseRule) :
  In rule (confReverses idx) ->
  Prefix rule = EmptyString ->
  Suffix rule = EmptyString ->
  Regex rule = None ->
  (exists r,
     In r (confReverses idx) /\ skips r query = false /\
     checkReverses idx query = IndexReverse (Reverse r)) /\
  forall conf, checkReverses_loop (confReverses idx) query conf = checkReverses idx query.
Proof.
  intros Hin Hp Hs Hre.
  assert (Hrule : skips rule query = false)
    by (unfold skips; rewrite Hp, Hs, Hre; reflexivity).
  unfold checkReverses. generalize (confReverse idx) as conf0.
  induction (confReverses idx) as [|r rules IH]; intros conf0; [destruct Hin|].
  cbn [checkReverses_loop].
  destruct (skips r query) eqn:Hr.
  - destruct Hin as [->|Hin]; [congruence|].
    destruct (IH Hin conf0) as [(r' & Hin' & Hr' & Hcheck) Hconf].
    split; [exists r'; split; [now right|]; split; assumption|].
    intros conf. rewrite (Hconf conf). symmetry. apply Hconf.
  - split; [|reflexivity]. exists r. split; [now left|]. split; [exact Hr|reflexivity].
Qed.

(** *** Where the wildcards are *)

Lemma Count_append (a b : string) (sep : ascii) :
  Count (String.append a b) sep = Count a sep + Count b sep.
Proof. induction a as [|c a IH]; simpl; [reflexivity|]. rewrite IH. lia. Qed.

Lemma firstWildcardDepth_bounds (pattern : string) (d : Z) :
  firstWildcardDepth pattern = Some d -> 0 <= d <= Count pattern dot.
Proof.
  revert d. induction pattern as [|c rest IH]; intros d; [discriminate|].
  cbn [firstWildcardDepth Count]. unfold is_separator.
  pose proof (Count_nonneg rest dot).
  destruct (is_wildcard c); [intros [= <-]; destruct (Ascii.eqb c dot); lia|].
  destruct (firstWildcardDepth rest) as [d'|]; [|discriminate].
  intros [= <-]. specialize (IH d' eq_refl). destruct (Ascii.eqb c dot); lia.
Qed.

Lemma lastWildcardDepth_bounds (pattern : string) (d : Z) :
  lastWildcardDepth pattern = Some d -> 0 <= d <= Count pattern dot.
Proof.
  revert d. induction pattern as [|c rest IH]; intros d; [discriminate|].
  cbn [lastWildcardDepth]. pose proof (Count_nonneg (String c rest) dot) as Hc.
  destruct (lastWildcardDepth rest) as [d'|].
  - intros [= <-]. specialize (IH d' eq_refl). cbn [Count].
    destruct (Ascii.eqb c dot); lia.
  - destruct (is_wildcard c); [|discriminate]. intros [= <-].
    cbn [Count] in *. destruct (Ascii.eqb c dot); lia.
Qed.

Lemma is_literal_false (pattern : string) :
  is_literal pattern = false -> firstWildcardDepth pattern <> None.
Proof.
  induction pattern as [|c rest IH]; [discriminate|].
  cbn [is_literal firstWildcardDepth].
  destruct (is_wildcard c); [discriminate|]. cbn [negb andb].
  intros H. specialize (IH H). destruct (firstWildcardDepth rest); congruence.
Qed.

Lemma firstWildcardDepth_append (front tail : string) (d : Z) :
  firstWildcardDepth front = Some d ->
  firstWildcardDepth (String.append front tail) = Some d.
Proof.
  revert d. induction front as [|c front IH]; intros d; [discriminate|].
  cbn [firstWildcardDepth String.append].
  destruct (is_wildcard c); [trivial|].
  destruct (firstWildcardDepth front) as [d'|]; [|discriminate].
  now rewrite (IH d' eq_refl).
Qed.

Lemma lastWildcardDepth_append (front tail : string) (d : Z) :
  lastWildcardDepth tail = Some d ->
  lastWildcardDepth (String.append front tail) = Some d.
Proof.
  intros H. induction front as [|c front IH]; [exact H|].
  cbn [lastWildcardDepth String.append]. now rewrite IH.
Qed.

Lemma lastWildcardDepth_literal (front tail : string) :
  is_literal tail = true ->
  lastWildcardDepth (String.append front tail) =
    match lastWildcardDepth front with
    | Some d => Some (d + Count tail dot)
    | None => None
    end.
Proof.
  intros Hlit. induction front as [|c front IH].
  - simpl. apply wildcard_depths_agree. now apply is_literal_no_wildcard.
  - cbn [lastWildcardDepth String.append]. rewrite IH.
    destruct (lastWildcardDepth front); [reflexivity|].
    destruct (is_wildcard c); [|reflexivity].
    f_equal. cbn [Count]. rewrite Count_append. lia.
Qed.

(** X9. A pattern whose last segment holds a wildcard is never reversed by
    the heuristic: when [checkReverses] gives Auto and the pattern ends in a
    piece that holds a wildcard and no separator, the direction is Forward
    whatever comes before that piece. *)
Theorem useReverse_trailing_wildcard (idx : IndexFinder) (front tail : string) :
  reverse idx = IndexAuto ->
  checkReverses idx (String.append front tail) = IndexAuto ->
  is_literal tail = false ->
  Count tail dot = 0 ->
  useReverse idx (String.append front tail) = Ok (false, set_reverse IndexDirect idx).
Proof.
  intros Hauto Hcheck Hwild Hdots.
  rewrite useReverse_first by exact Hauto.
  unfold resolution. rewrite Hcheck. unfold heuristic.
  destruct (lastWildcardDepth tail) as [d|] eqn:Hlast.
  - pose proof (lastWildcardDepth_bounds tail d Hlast) as Hd.
    rewrite (lastWildcardDepth_append front tail d Hlast).
    destruct (firstWildcardDepth (String.append front tail)) as [f|] eqn:Hfirst;
      [|reflexivity].
    pose proof (firstWildcardDepth_bounds _ f Hfirst) as Hf.
    replace (f <? d) with false by (symmetry; apply Z.ltb_ge; lia). reflexivity.
  - exfalso. apply (is_literal_false tail Hwild).
    now apply wildcard_depths_agree.
Qed.

(** X10. A pattern with a wildcard in its first segment, no wildcard after
    that segment and at least one separator is reversed by the heuristic:
    when [checkReverses] gives Auto, the direction is Reversed. *)
Theorem useReverse_leading_wildcard (idx : IndexFinder) (front tail : string) :
  reverse idx = IndexAuto ->
  checkReverses idx (String.append front tail) = IndexAuto ->
  is_literal front = false ->
  Count front dot = 0 ->
  is_literal tail = true ->
  0 < Count tail dot ->
  useReverse idx (String.append front tail) = Ok (true, set_reverse IndexReversed idx).
Proof.
  intros Hauto Hcheck Hwild Hdots Hlit Hseps.
  rewrite useReverse_first by exact Hauto.
  unfold resolution. rewrite Hcheck. unfold heuristic.
  destruct (firstWildcardDepth front) as [f|] eqn:Hfirst;
    [|exfalso; now apply (is_literal_false front Hwild)].
  pose proof (firstWildcardDepth_bounds front f Hfirst) as Hf.
  rewrite (firstWildcardDepth_append front tail f Hfirst).
  rewrite (lastWildcardDepth_literal front tail Hlit).
  destruct (lastWildcardDepth front) as [l|] eqn:Hlast.
  - pose proof (lastWildcardDepth_bounds front l Hlast) as Hl.
    replace (f <? l + Count tail dot) with true by (symmetry; apply Z.ltb_lt; lia).
    reflexivity.
  - exfalso. apply wildcard_depths_agree in Hlast. congruence.
Qed.

(** *** Queries *)

(** X11. For a pattern with fewer than 9999 separators, before and after
    [ReverseString], the Level of the predicate alone tells the level of
    the pattern handed to the builder, the direction and the daily mode:
    its remainder by 10000 is the number of separators plus one, and its
    quotient is 0 for Forward daily, 1 for Reversed daily, 2 for the
    Forward tree and 3 for the Reversed tree. *)
Theorem Execute_level_decodes (idx : IndexFinder) (query : string) (from until : Z) :
  Count query dot < 9999 ->
  Count (ReverseString query) dot < 9999 ->
  exists w idx' v,
    Execute_where idx query from until = Ok (w, idx') /\
    head w = Some (Eq "Level" (IntValue v)) /\
    v mod 10000 =
      Count (if reversed (reverse idx') then ReverseString query else query) dot + 1 /\
    v / 10000 =
      (if useDaily idx' then 0 else 2) + (if reversed (reverse idx') then 1 else 0).
Proof.
  intros Hquery Hreversed.
  pose proof (Execute_where_spec idx query from until) as Hspec. simpl in Hspec.
  pose proof (direction_resolved idx query) as Hd.
  set (pattern := if reversed (direction idx query) then ReverseString query else query)
    in *.
  assert (Hcount : Count pattern dot < 9999)
    by (subst pattern; destruct (reversed _); assumption).
  pose proof (Count_nonneg pattern dot) as Hnn.
  eexists _, _, _. split; [exact Hspec|]. split; [reflexivity|].
  cbn [reverse useDaily set_useDaily set_reverse]. fold pattern.
  rewrite (int_add_exact (Count pattern dot) 1) by lia.
  assert (Hoff : 0 <= levelOffset (direction idx query) (daily idx from until) <= 30000)
    by (destruct (direction idx query), (daily idx from until); simpl; lia).
  rewrite int_add_exact by lia.
  destruct (direction idx query); [contradiction| |];
    destruct (daily idx from until); cbn [levelOffset reversed];
    split;
    first [ symmetry; apply (Z.mod_unique _ _ 0); lia
          | symmetry; apply (Z.mod_unique _ _ 1); lia
          | symmetry; apply (Z.mod_unique _ _ 2); lia
          | symmetry; apply (Z.mod_unique _ _ 3); lia
          | symmetry; apply (Z.div_unique _ _ _ (Count pattern dot + 1)); lia ].
Qed.

(** X12. [Execute] never panics.  It returns the error of the transport as
    it is and stores the body the transport gives, also when there is an
    error; it changes none of the configuration fields; and after a nil
    body [List] and [Series] return the empty slice. *)
Theorem Execute_transport (idx : IndexFinder) (ctx : Context) (query : string)
    (from until : Z) :
  exists w idx0 raw err idx',
    Execute_where idx query from until = Ok (w, idx0) /\
    Query (WithTable ctx (table idx)) (url idx) (selectPaths (table idx) w)
      (opts idx) = (raw, err) /\
    Execute idx ctx query from until = Ok (err, idx') /\
    idx' = set_body raw idx0 /\
    same_config idx' idx /\
    (raw = None ->
      List idx' = Ok (Some [], idx') /\ Series idx' = Ok (Some [], idx')).
Proof.
  destruct (Execute_spec idx ctx query from until) as (w & raw & err & Hw & HQ & HE).
  eexists w, _, raw, err, _.
  split; [exact Hw|]. split; [exact HQ|]. split; [exact HE|].
  split; [reflexivity|]. split; [repeat split|].
  intros ->. unfold List, Series. rewrite !makeList_spec. split; reflexivity.
Qed.

(** X13. A finder keeps the direction of its first query: when it executes
    a second pattern, the predicate is built in the direction the first
    pattern resolved to, and the Path clause holds the second pattern
    reversed exactly when that direction is Reversed. *)
Theorem Execute_keeps_direction (idx : IndexFinder) (ctx : Context)
    (first second : string) (from until from' until' : Z)
    (err : option string) (idx1 : IndexFinder) :
  Execute idx ctx first from until = Ok (err, idx1) ->
  exists w idx2,
    Execute_where idx1 second from' until' = Ok (w, idx2) /\
    reverse idx1 <> IndexAuto /\
    reverse idx2 = reverse idx1 /\
    w !! 1%nat =
      Some (TreeGlob "Path"
              (if reversed (reverse idx1) then ReverseString second else second)).
Proof.
  destruct (Execute_spec idx ctx first from until) as (w1 & raw & err1 & _ & _ & HE).
  rewrite HE. intros [= <- <-].
  pose proof (direction_resolved idx first) as Hd.
  set (idx1 := set_body raw _).
  assert (Hdir : direction idx1 second = reverse idx1)
    by (apply (direction_cached idx1 second Hd)).
  pose proof (Execute_where_spec idx1 second from' until') as Hspec. simpl in Hspec.
  rewrite Hdir in Hspec.
  eexists _, _. split; [exact Hspec|]. split; [exact Hd|]. split; reflexivity.
Qed.

(** *** The life of a finder *)

Lemma after_invariant (c : call) (idx : IndexFinder) :
  (body idx <> None -> reverse idx <> IndexAuto) ->
  exists idx',
    after c idx = Ok idx' /\ same_config idx' idx /\
    (body idx' <> None -> reverse idx' <> IndexAuto).
Proof.
  intros Hinv. destruct c as [query|ctx query from until| |]; cbn [after].
  - rewrite useReverse_direction. cbn [mbind result_bind].
    eexists. split; [reflexivity|]. split; [repeat split|].
    intros _. apply direction_resolved.
  - destruct (Execute_spec idx ctx query from until) as (w & raw & err & _ & _ & HE).
    rewrite HE. cbn [mbind result_bind].
    eexists. split; [reflexivity|]. split; [repeat split|].
    intros _. apply (direction_resolved idx query).
  - unfold List. rewrite makeList_spec. cbn [mbind result_bind].
    eexists. split; [reflexivity|].
    destruct (body idx) eqn:Hb; (split; [repeat split|]).
    + intros _. apply direction_resolved.
    + rewrite Hb. congruence.
  - unfold Series. rewrite makeList_spec. cbn [mbind result_bind].
    eexists. split; [reflexivity|].
    destruct (body idx) eqn:Hb; (split; [repeat split|]).
    + intros _. apply direction_resolved.
    + rewrite Hb. congruence.
Qed.

(** X14. Whatever methods are called on a new finder, in whatever order, no
    call panics, the configuration fields keep the values [NewIndex] gave
    them, and a finder that holds a response body has a resolved
    direction; so [List] and [Series] never change the finder. *)
Theorem NewIndex_invariant (url table : string) (dailyEnabled : bool)
    (reverse_name : string) (reverses : IndexReverses) (opts : Options)
    (cs : list call) :
  let new := NewIndex IndexReverse url table dailyEnabled reverse_name reverses opts in
  exists idx,
    after_all cs new = Ok idx /\
    same_config idx new /\
    (body idx <> None -> reverse idx <> IndexAuto) /\
    forall onlySeries, exists rows, makeList idx onlySeries = Ok (Some rows, idx).
Proof.
  intros new.
  assert (Hgen : forall cs idx,
    (body idx <> None -> reverse idx <> IndexAuto) ->
    exists idx', after_all cs idx = Ok idx' /\ same_config idx' idx /\
                 (body idx' <> None -> reverse idx' <> IndexAuto)).
  { clear. induction cs as [|c cs IH]; intros idx Hinv.
    - exists idx. split; [reflexivity|]. split; [repeat split|exact Hinv].
    - destruct (after_invariant c idx Hinv) as (idx1 & Hc & Hcfg1 & Hinv1).
      destruct (IH idx1 Hinv1) as (idx2 & Hcs & Hcfg2 & Hinv2).
      exists idx2. cbn [after_all]. rewrite Hc. cbn [mbind result_bind].
      split; [exact Hcs|]. split; [|exact Hinv2].
      unfold same_config in *.
      destruct Hcfg1 as (?&?&?&?&?&?), Hcfg2 as (?&?&?&?&?&?).
      repeat split; congruence. }
  destruct (Hgen cs new) as (idx & Hcs & Hcfg & Hinv); [intros H; now contradict H|].
  exists idx. split; [exact Hcs|]. split; [exact Hcfg|]. split; [exact Hinv|].
  intros onlySeries. eexists. rewrite makeList_spec.
  destruct (body idx) eqn:Hb; [|reflexivity].
  rewrite direction_cached, set_reverse_same by (apply Hinv; congruence).
  reflexivity.
Qed.

End Finder.

(** ** Closed instances *)

(** A daily query on a wildcard pattern that resolves Reversed. *)
Example Execute_where_daily :
  Execute_where IndexReverseNames glob reverseString unixDate dailyFinder
    "a.*.c.d" 1612137600 1612224000 =
    Ok ([Eq "Level" (IntValue 10004); TreeGlob "Path" "d.c.*.a";
         Format "Date >='%s' AND Date <= '%s'" ["2021-02-01"; "2021-02-02"]],
        set_useDaily true (set_reverse IndexReversed dailyFinder)).
Proof. reflexivity. Qed.

(** The same query without a time range goes to the reversed tree. *)
Example Execute_where_tree :
  Execute_where IndexReverseNames glob reverseString unixDate dailyFinder
    "a.*.c.d" 0 0 =
    Ok ([Eq "Level" (IntValue 30004); TreeGlob "Path" "d.c.*.a";
         Eq "Date" (StringValue "1970-02-12")],
        set_reverse IndexReversed dailyFinder).
Proof. reflexivity. Qed.

(** [Execute] stores the body the store answers with, and the decoder
    restores the natural order of its lines. *)
Example Execute_then_List :
  exists idx,
    Execute IndexReverseNames glob reverseString unixDate unrendered unit noScope
      (answering (line "d.c.b.a" ++ line "d.c.x.a")) dailyFinder tt "a.*.c.d" 0 0
    = Ok (None, idx) /\
    List IndexReverseNames glob reverseBytes idx =
      Ok (Some [bytes "a.b.c.d"; bytes "a.x.c.d"], idx).
Proof. eexists. split; reflexivity. Qed.

(** The reversal of section 4.4 keeps the number of separators of every
    pattern, so with it the level of the predicate is the level of the
    pattern in both directions. *)
Lemma dot_ascii_of_byte (b : byte) :
  Ascii.eqb (ascii_of_byte b) dot = Byte.eqb b dot_byte.
Proof. destruct b; reflexivity. Qed.

Lemma Count_string_of_list_byte (l : list byte) :
  Count (string_of_list_byte l) dot =
    Z.of_nat (List.length (List.filter (fun b => Byte.eqb b dot_byte) l)).
Proof.
  induction l as [|b l IH]; [reflexivity|].
  cbn [string_of_list_byte map string_of_list_ascii Count List.filter].
  fold (string_of_list_byte l). rewrite IH, dot_ascii_of_byte.
  destruct (Byte.eqb b dot_byte); cbn [List.length]; lia.
Qed.

Lemma filter_length_rev {A} (f : A -> bool) (l : list A) :
  List.length (List.filter f (rev l)) = List.length (List.filter f l).
Proof.
  induction l as [|x l IH]; [reflexivity|].
  cbn [rev List.filter]. rewrite List.filter_app, length_app, IH.
  cbn [List.filter]. destruct (f x); cbn [List.length]; lia.
Qed.

Lemma reverseBytes_separators (l : list byte) :
  List.length (List.filter (fun b => Byte.eqb b dot_byte) (reverseBytes l)) =
  List.length (List.filter (fun b => Byte.eqb b dot_byte) l).
Proof.
  unfold reverseBytes. destruct (last l) as [b|] eqn:Hlast.
  - apply last_Some in Hlast as [l' ->].
    destruct (Byte.eqb b dot_byte) eqn:Hb; [|apply filter_length_rev].
    rewrite List.removelast_last, !List.filter_app, !length_app, filter_length_rev.
    cbn [List.filter]. rewrite Hb, (Byte.byte_dec_lb (@eq_refl _ dot_byte)).
    reflexivity.
  - apply last_None in Hlast. now subst l.
Qed.

Lemma reverseString_separators (pattern : string) :
  Count (reverseString pattern) dot = Count pattern dot.
Proof.
  unfold reverseString.
  rewrite Count_string_of_list_byte, reverseBytes_separators,
    <- Count_string_of_list_byte.
  now rewrite string_of_list_byte_of_string.
Qed.

(** C1 at the pattern a.b.c on a finder without rules and without daily
    indexing: the direction is Forward and the level is 20003; and at the
    pattern a.*.c.d with a time range on a finder with daily indexing: the
    direction is Reversed, the reversal keeps the three separators and the
    level is 10004. *)
Lemma Execute_level_offset_witness :
  (direction IndexReverseNames glob plainFinder "a.b.c" = IndexDirect /\
   dailyEnabled plainFinder = false /\
   exists idx',
     Execute_where IndexReverseNames glob reverseString unixDate plainFinder
       "a.b.c" 1612137600 1612224000 =
       Ok ([Eq "Level" (IntValue 20003); TreeGlob "Path" "a.b.c";
            Eq "Date" (StringValue "1970-02-12")], idx')) /\
  (Count (reverseString "a.*.c.d") dot = Count "a.*.c.d" dot /\
   useReverse IndexReverseNames glob dailyFinder "a.*.c.d" =
     Ok (true, set_reverse IndexReversed dailyFinder) /\
   exists w,
     Execute_where IndexReverseNames glob reverseString unixDate dailyFinder
       "a.*.c.d" 1612137600 1612224000 =
       Ok (w, set_useDaily true (set_reverse IndexReversed dailyFinder)) /\
     head w = Some (Eq "Level" (IntValue 10004))).
Proof.
  split.
  - split; [reflexivity|]. split; [reflexivity|].
    exact (proj2 (Execute_level_offset IndexReverseNames glob reverseString unixDate
                    unrendered unit noScope (answering []))
             plainFinder 1612137600 1612224000 eq_refl eq_refl).
  - assert (Hkeeps : Count (reverseString "a.*.c.d") dot = Count "a.*.c.d" dot)
      by reflexivity.
    destruct (proj1 (Execute_level_offset IndexReverseNames glob reverseString
                       unixDate unrendered unit noScope (answering []))
                dailyFinder tt "a.*.c.d" 1612137600 1612224000)
      as (_ & Huse & w & raw & err & Hw & _ & _ & _ & Hlevel).
    split; [exact Hkeeps|]. split; [exact Huse|].
    exists w. split; [exact Hw|]. exact (Hlevel Hkeeps).
Defined.

(** C2 at the patterns of the specification: *.b.c.d has depths 0 and 3 and
    resolves Reversed, a.b.c.* has depths 3 and 0 and resolves Forward. *)
Lemma useReverse_wildcard_depths_witness :
  (firstWildcardDepth glob "*.b.c.d" = Some 0 /\
   lastWildcardDepth glob "*.b.c.d" = Some 3 /\
   useReverse IndexReverseNames glob plainFinder "*.b.c.d" =
     Ok (true, set_reverse IndexReversed plainFinder)) /\
  (firstWildcardDepth glob "a.b.c.*" = Some 3 /\
   lastWildcardDepth glob "a.b.c.*" = Some 0 /\
   useReverse IndexReverseNames glob plainFinder "a.b.c.*" =
     Ok (false, set_reverse IndexDirect plainFinder)).
Proof.
  split; (split; [reflexivity|]); (split; [reflexivity|]).
  - exact (useReverse_wildcard_depths IndexReverseNames glob plainFinder
             "*.b.c.d" 0 3 eq_refl eq_refl (List.Forall_nil _) eq_refl eq_refl).
  - exact (useReverse_wildcard_depths IndexReverseNames glob plainFinder
             "a.b.c.*" 3 0 eq_refl eq_refl (List.Forall_nil _) eq_refl eq_refl).
Defined.

(** C3 on a finder first asked about *.b.c.d: it stays Reversed when asked
    about a.b.c.*, which alone resolves Forward, also after an [Execute] and
    a [List]. *)
Lemma useReverse_one_shot_witness :
  let idx1 := set_reverse IndexReversed plainFinder in
  useReverse IndexReverseNames glob plainFinder "*.b.c.d" = Ok (true, idx1) /\
  reverse idx1 <> IndexAuto /\
  useReverse IndexReverseNames glob idx1 "a.b.c.*" = Ok (true, idx1) /\
  exists idx2,
    after_all IndexReverseNames glob reverseString reverseBytes unixDate
      unrendered unit noScope (answering (line "c.b.a"))
      [CallExecute unit tt "a.b.c.*" 0 0; CallList unit] idx1 = Ok idx2 /\
    reverse idx2 = IndexReversed /\
    useReverse IndexReverseNames glob idx2 "a.b.c" = Ok (true, idx2).
Proof.
  intros idx1.
  assert (H : useReverse IndexReverseNames glob plainFinder "*.b.c.d" = Ok (true, idx1))
    by reflexivity.
  destruct (useReverse_one_shot IndexReverseNames glob reverseString reverseBytes
              unixDate unrendered unit noScope (answering (line "c.b.a"))
              plainFinder "*.b.c.d" true idx1 H) as (Hres & _ & Hcached & Hcalls).
  split; [exact H|]. split; [exact Hres|]. split; [apply Hcached|].
  destruct (Hcalls [CallExecute unit tt "a.b.c.*" 0 0; CallList unit])
    as (idx2 & Hafter & Hrev & Hagain).
  exists idx2. split; [exact Hafter|]. split; [exact Hrev|]. apply Hagain.
Defined.

(** C4 at the literal pattern a.b.c. *)
Lemma useReverse_literal_witness :
  reverse plainFinder = IndexAuto /\
  confReverse plainFinder = IndexAuto /\
  is_literal glob "a.b.c" = true /\
  useReverse IndexReverseNames glob plainFinder "a.b.c" =
    Ok (false, set_reverse IndexDirect plainFinder).
Proof.
  split; [reflexivity|]. split; [reflexivity|]. split; [reflexivity|].
  exact (useReverse_literal IndexReverseNames glob plainFinder "a.b.c"
           eq_refl eq_refl (List.Forall_nil _) eq_refl).
Defined.

(** C6, as amended, at the body of the specification in the Forward
    direction. *)
Lemma makeList_retains_witness :
  let idx := set_body (Some (line "a.b." ++ line "a.b.c"))
               (set_reverse IndexDirect plainFinder) in
  body idx = Some (line "a.b." ++ line "a.b.c") /\
  List IndexReverseNames glob reverseBytes idx =
    Ok (Some [bytes "a.b."; bytes "a.b.c"], idx) /\
  Series IndexReverseNames glob reverseBytes idx = Ok (Some [bytes "a.b.c"], idx).
Proof.
  intros idx. split; [reflexivity|].
  exact (proj2 (proj2 (proj2
           (makeList_retains IndexReverseNames glob reverseBytes idx
              (line "a.b." ++ line "a.b.c") eq_refl))) eq_refl eq_refl).
Defined.

(** C6 as stated fails in the Reversed direction.  A finder executes the
    pattern *.b.c.d, which resolves Reversed, and the store answers with the
    line ".a": it does not end in the separator, so [Series] retains it, and
    it is returned as "a.", which does.  [List] returns the same entry, so
    its output without the directory entries is empty and differs from the
    output of [Series]. *)
Lemma Series_returns_directory :
  exists idx,
    Execute IndexReverseNames glob reverseString unixDate unrendered unit noScope
      (answering (line ".a")) plainFinder tt "*.b.c.d" 0 0 = Ok (None, idx) /\
    reverse idx = IndexReversed /\
    Series IndexReverseNames glob reverseBytes idx = Ok (Some [bytes "a."], idx) /\
    is_directory (bytes "a.") = true /\
    List IndexReverseNames glob reverseBytes idx = Ok (Some [bytes "a."], idx) /\
    List.filter (fun row => negb (is_directory row)) [bytes "a."] <> [bytes "a."].
Proof.
  eexists. split; [reflexivity|]. split; [reflexivity|].
  split; [reflexivity|]. split; [reflexivity|].
  split; [reflexivity|]. discriminate.
Qed.

(** The same lines are returned when [ReverseBytes] inverts the order of
    the segments. *)
Example Series_returns_directory_segments :
  let idx := set_body (Some (line ".a")) (set_reverse IndexReversed plainFinder) in
  Series IndexReverseNames glob reverseSegments idx = Ok (Some [bytes "a."], idx) /\
  List IndexReverseNames glob reverseSegments idx = Ok (Some [bytes "a."], idx).
Proof. split; reflexivity. Qed.

(** C8 at the pattern a.b.c.*, which the heuristic resolves Forward: the
    first two rules do not match, the third does and forces Reversed, and
    the matching rule after it is not consulted. *)
Lemma checkReverses_first_match_witness :
  let idx := ruledFinder [carbonDirect; neverDirect; starReversed; aAuto] in
  heuristic glob "a.b.c.*" = IndexDirect /\
  rule_matches carbonDirect "a.b.c.*" = false /\
  rule_matches neverDirect "a.b.c.*" = false /\
  rule_matches starReversed "a.b.c.*" = true /\
  rule_matches aAuto "a.b.c.*" = true /\
  checkReverses IndexReverseNames idx "a.b.c.*" = IndexReversed /\
  useReverse IndexReverseNames glob idx "a.b.c.*" =
    Ok (true, set_reverse IndexReversed idx).
Proof.
  intros idx.
  assert (Hskipped : Forall (fun r => rule_matches r "a.b.c.*" = false)
                       [carbonDirect; neverDirect]) by (repeat constructor).
  destruct (checkReverses_first_match IndexReverseNames glob idx "a.b.c.*"
              [carbonDirect; neverDirect] [aAuto] starReversed
              eq_refl eq_refl Hskipped eq_refl) as [Hcheck Hforced].
  split; [reflexivity|]. split; [reflexivity|]. split; [reflexivity|].
  split; [reflexivity|]. split; [reflexivity|].
  split; [exact Hcheck|]. apply Hforced. discriminate.
Defined.

(** C10 at the pattern a.*.c.d, which the heuristic resolves Reversed: the
    first matching rule carries Auto, the matching rule after it, which
    would force Forward, is not consulted, and the direction is Reversed. *)
Lemma checkReverses_auto_rule_witness :
  let idx := ruledFinder [carbonDirect; aAuto; dDirect] in
  heuristic glob "a.*.c.d" = IndexReversed /\
  rule_matches carbonDirect "a.*.c.d" = false /\
  rule_matches aAuto "a.*.c.d" = true /\
  rule_matches dDirect "a.*.c.d" = true /\
  checkReverses IndexReverseNames idx "a.*.c.d" = IndexAuto /\
  useReverse IndexReverseNames glob idx "a.*.c.d" =
    Ok (true, set_reverse IndexReversed idx).
Proof.
  intros idx.
  assert (Hskipped : Forall (fun r => rule_matches r "a.*.c.d" = false)
                       [carbonDirect]) by (repeat constructor).
  destruct (checkReverses_auto_rule IndexReverseNames glob idx "a.*.c.d"
              [carbonDirect] [dDirect] aAuto
              eq_refl eq_refl Hskipped eq_refl eq_refl) as [Hcheck Huse].
  split; [reflexivity|]. split; [reflexivity|]. split; [reflexivity|].
  split; [reflexivity|]. split; [exact Hcheck|]. exact Huse.
Defined.

(** ** Closed instances of the further properties *)

(** X2 at a body of two lines in the Forward direction. *)
Lemma makeList_unlines_witness :
  let rows := [bytes "a.b."; bytes "a.b.c"] in
  let idx := set_body (Some (unlines rows)) (set_reverse IndexDirect plainFinder) in
  forallb is_line rows = true /\
  body idx = Some (unlines rows) /\
  reverse idx <> IndexAuto /\
  List IndexReverseNames glob reverseBytes idx = Ok (Some rows, idx) /\
  Series IndexReverseNames glob reverseBytes idx = Ok (Some [bytes "a.b.c"], idx).
Proof.
  intros rows idx.
  assert (Hres : reverse idx <> IndexAuto) by discriminate.
  split; [reflexivity|]. split; [reflexivity|]. split; [exact Hres|].
  exact (makeList_unlines IndexReverseNames glob reverseBytes idx rows
           eq_refl eq_refl Hres).
Defined.

(** X4 at a body with an empty line in the Forward direction. *)
Lemma makeList_entries_witness :
  let idx := set_body (Some (line "a.b." ++ line "" ++ bytes "a.b.c"))
               (set_reverse IndexDirect plainFinder) in
  reverse idx <> IndexAuto /\
  exists rows lines,
    makeList IndexReverseNames glob reverseBytes idx false = Ok (Some rows, idx) /\
    forallb is_line lines = true /\
    rows = (if reversed (reverse idx) then map reverseBytes lines else lines) /\
    (reverse idx = IndexDirect -> forallb is_line rows = true).
Proof.
  intros idx.
  assert (Hres : reverse idx <> IndexAuto) by discriminate.
  split; [exact Hres|].
  exact (makeList_entries IndexReverseNames glob reverseBytes idx false Hres).
Defined.

(** X5 at a body with an empty line and no final newline. *)
Lemma List_unlines_List_witness :
  let idx := set_body (Some (line "a.b." ++ line "" ++ bytes "a.b.c"))
               (set_reverse IndexDirect plainFinder) in
  let rows := [bytes "a.b."; bytes "a.b.c"] in
  reverse idx = IndexDirect /\
  List IndexReverseNames glob reverseBytes idx = Ok (Some rows, idx) /\
  unlines rows = line "a.b." ++ line "a.b.c" /\
  List IndexReverseNames glob reverseBytes (set_body (Some (unlines rows)) idx)
    = Ok (Some rows, set_body (Some (unlines rows)) idx).
Proof.
  intros idx rows. split; [reflexivity|]. split; [reflexivity|].
  split; [reflexivity|].
  exact (List_unlines_List IndexReverseNames glob reverseBytes idx rows
           eq_refl eq_refl).
Defined.

(** X7 at the pattern a.b.c.*, which the heuristic resolves Forward, on a
    finder configured Reversed whose only rule is skipped. *)
Lemma useReverse_configured_witness :
  heuristic glob "a.b.c.*" = IndexDirect /\
  reverse reversedFinder = IndexAuto /\
  skips carbonDirect "a.b.c.*" = true /\
  confReverse reversedFinder = IndexReversed /\
  useReverse IndexReverseNames glob reversedFinder "a.b.c.*" =
    Ok (true, set_reverse IndexReversed reversedFinder).
Proof.
  split; [reflexivity|]. split; [reflexivity|]. split; [reflexivity|].
  split; [reflexivity|].
  assert (Hskipped : Forall (fun r => skips r "a.b.c.*" = true)
                       (confReverses reversedFinder)) by (repeat constructor).
  assert (Hconf : confReverse reversedFinder <> IndexAuto) by discriminate.
  exact (useReverse_configured IndexReverseNames glob reversedFinder "a.b.c.*"
           eq_refl Hskipped Hconf).
Defined.

(** X8 at a rule list with a catch-all rule between two others. *)
Lemma checkReverses_catch_all_witness :
  let idx := ruledFinder [carbonDirect; anyReversed; dDirect] in
  In anyReversed (confReverses idx) /\
  (exists r,
     In r (confReverses idx) /\ skips r "x.y.d" = false /\
     checkReverses IndexReverseNames idx "x.y.d" = IndexReverseNames (Reverse r)) /\
  forall conf,
    checkReverses_loop IndexReverseNames (confReverses idx) "x.y.d" conf
    = checkReverses IndexReverseNames idx "x.y.d".
Proof.
  intros idx.
  assert (Hin : In anyReversed (confReverses idx)) by (right; left; reflexivity).
  split; [exact Hin|].
  exact (checkReverses_catch_all IndexReverseNames idx "x.y.d" anyReversed
           Hin eq_refl eq_refl eq_refl).
Defined.

(** X9 at the pattern *.b.c*: a wildcard in the first segment, and one in
    the last. *)
Lemma useReverse_trailing_wildcard_witness :
  reverse plainFinder = IndexAuto /\
  checkReverses IndexReverseNames plainFinder "*.b.c*" = IndexAuto /\
  is_literal glob "c*" = false /\
  Count "c*" dot = 0 /\
  useReverse IndexReverseNames glob plainFinder "*.b.c*" =
    Ok (false, set_reverse IndexDirect plainFinder).
Proof.
  split; [reflexivity|]. split; [reflexivity|]. split; [reflexivity|].
  split; [reflexivity|].
  exact (useReverse_trailing_wildcard IndexReverseNames glob plainFinder "*.b." "c*"
           eq_refl eq_refl eq_refl eq_refl).
Defined.

(** X10 at the pattern a*.b.c. *)
Lemma useReverse_leading_wildcard_witness :
  reverse plainFinder = IndexAuto /\
  checkReverses IndexReverseNames plainFinder "a*.b.c" = IndexAuto /\
  is_literal glob "a*" = false /\
  Count "a*" dot = 0 /\
  is_literal glob ".b.c" = true /\
  0 < Count ".b.c" dot /\
  useReverse IndexReverseNames glob plainFinder "a*.b.c" =
    Ok (true, set_reverse IndexReversed plainFinder).
Proof.
  split; [reflexivity|]. split; [reflexivity|]. split; [reflexivity|].
  split; [reflexivity|]. split; [reflexivity|]. split; [reflexivity|].
  exact (useReverse_leading_wildcard IndexReverseNames glob plainFinder "a*" ".b.c"
           eq_refl eq_refl eq_refl eq_refl eq_refl eq_refl).
Defined.

(** X11 at a daily query that resolves Reversed: the Level is 10004. *)
Lemma Execute_level_decodes_witness :
  Count "a.*.c.d" dot < 9999 /\
  Count (reverseString "a.*.c.d") dot < 9999 /\
  exists w idx' v,
    Execute_where IndexReverseNames glob reverseString unixDate dailyFinder
      "a.*.c.d" 1612137600 1612224000 = Ok (w, idx') /\
    head w = Some (Eq "Level" (IntValue v)) /\
    v mod 10000 =
      Count (if reversed (reverse idx') then reverseString "a.*.c.d" else "a.*.c.d")
        dot + 1 /\
    v / 10000 =
      (if useDaily idx' then 0 else 2) + (if reversed (reverse idx') then 1 else 0).
Proof.
  split; [reflexivity|]. split; [reflexivity|].
  exact (Execute_level_decodes IndexReverseNames glob reverseString unixDate
           dailyFinder "a.*.c.d" 1612137600 1612224000 eq_refl eq_refl).
Defined.

(** X13 on a finder that first executes *.b.c.d and then a.b.c.*, which
    alone resolves Forward: the second pattern is sent reversed. *)
Lemma Execute_keeps_direction_witness :
  exists idx1,
    heuristic glob "a.b.c.*" = IndexDirect /\
    Execute IndexReverseNames glob reverseString unixDate unrendered unit noScope
      (answering (line "d.c.b.a")) plainFinder tt "*.b.c.d" 0 0 = Ok (None, idx1) /\
    exists w idx2,
      Execute_where IndexReverseNames glob reverseString unixDate idx1
        "a.b.c.*" 0 0 = Ok (w, idx2) /\
      reverse idx1 <> IndexAuto /\
      reverse idx2 = reverse idx1 /\
      w !! 1%nat =
        Some (TreeGlob "Path"
                (if reversed (reverse idx1)
                 then reverseString "a.b.c.*" else "a.b.c.*")).
Proof.
  eexists. split; [reflexivity|]. split; [reflexivity|].
  exact (Execute_keeps_direction IndexReverseNames glob reverseString unixDate
           unrendered unit noScope (answering (line "d.c.b.a")) plainFinder tt
           "*.b.c.d" "a.b.c.*" 0 0 0 0 None _ eq_refl).
Defined.
